(** * gen_pair_pseudo.c: probable-prime pair and RSA exponent generation

    A shallow embedding of [gen_pair_pseudo.c] and the properties of its
    candidate search ([fnCreate_pseudo_prime]), of the derivation of the
    private exponent ([fnCompute_exponent_d]) and of the selection of the
    public exponent ([fnGet_exponent_e]).

    Conventions of the embedding.
    - An [mpz_t] value is a [Z]; an [mpz_t] variable is a [handle] into a
      [store], because the C functions receive every big integer by
      reference.  Function-local [mpz_t] temporaries are fresh objects that
      no caller can alias; they are [let]-bound values.
    - A C [int] is a [Z].  The arithmetic on [nNumBits] ([nNumBits - 1],
      [2 * nNumBits - 1], [5 * nNumBits]) and on the counter [i] is the
      mathematical one.  The C program computes them in [int]: the model
      of [fnCreate_pseudo_prime] is that of the program for
      [1 <= nNumBits] and [5 * nNumBits <= INT_MAX], and statements that
      depend on the counter carry these bounds.
    - A bit count passed to GMP must be non-negative: a negative [int]
      converts to an enormous [mp_bitcnt_t], on which GMP stops the
      process.  The model does not follow the program there ([2 ^ n] is 0
      for a negative [n]); statements that a function returns carry the
      hypothesis that its bit count is not negative.
    - What is read from the terminal enters as the value that [sscanf]
      delivered: an [int] for the key length and the seed, an
      [unsigned long] for a typed exponent.
    - The loops [while (1)] are functions with a [fuel] argument that bounds
      the number of iterations; [OutOfFuel] means that the loop was still
      running when the bound was reached.
    - [exit(1)] is the outcome [Exit1].  The values and messages that the
      program writes are a list of [event]s in the order of the calls that
      write them, for stdout and stderr together; prompts and the binary
      rendering of the primes are not recorded.  Since stdout is buffered
      and stderr is not, the position of a message of one stream among
      those of the other says nothing about what a terminal or a file
      shows. *)

From Stdlib Require Import ZArith List Bool Lia Zcong.
Import ListNotations.
Local Open Scope Z_scope.

(** ** The GMP functions the program calls, after the GMP manual *)

Module GMP.

(** [mpz_mul_2exp (rop, op1, op2)]: [rop = op1 * 2^op2], for a bit count
    [op2 >= 0].  The C parameter is an unsigned [mp_bitcnt_t]; the
    definition says nothing true of a negative [int] passed for it. *)
Definition mpz_mul_2exp (op1 op2 : Z) : Z := op1 * 2 ^ op2.

(** [mpz_cmp (op1, op2)]: positive, zero or negative; only the sign is
    specified, and only the sign is used by the program. *)
Definition mpz_cmp (op1 op2 : Z) : Z :=
  match op1 ?= op2 with
  | Lt => -1
  | Eq => 0
  | Gt => 1
  end.

Definition mpz_cmp_ui (op1 op2 : Z) : Z := mpz_cmp op1 op2.

(** [mpz_odd_p], [mpz_even_p]: non-zero iff the operand is odd, even. *)
Definition mpz_odd_p (op : Z) : Z := if Z.odd op then 1 else 0.
Definition mpz_even_p (op : Z) : Z := if Z.even op then 1 else 0.

(** [mpz_gcd]: the greatest common divisor, never negative. *)
Definition mpz_gcd (op1 op2 : Z) : Z := Z.gcd op1 op2.

(** [mpz_invert (rop, op1, op2)]: the inverse of [op1] modulo [op2].
    [None] is the return value zero (no inverse, [rop] undefined); [Some d]
    is a non-zero return value with [rop = d], [0 <= d < |op2|], and [d = 0]
    only when [|op2| = 1].  GMP decides by testing whether the gcd of the
    operands is one.  The manual leaves the modulus zero undefined. *)
Definition mpz_invert (op1 op2 : Z) : option Z :=
  if Z.gcd op1 op2 =? 1 then Some (Z.invmod op1 (Z.abs op2)) else None.

End GMP.

Import GMP.

(** The parts of GMP that are not arithmetic: the state of the random
    generator and the probabilistic primality test.  [mpz_urandomb] returns
    the drawn value and the next state; the manual promises a value in
    [0, 2^n - 1].  [mpz_probab_prime_p n reps] is 2 (certainly prime),
    1 (probably prime) or 0 (composite); it is a function of its arguments,
    because GMP runs it on a generator of its own that every call sets up
    afresh, not on [rndState]. *)
Class GmpOracle : Type := {
  randstate : Type;
  gmp_randseed_ui : Z -> randstate;
  mpz_urandomb : randstate -> Z -> Z * randstate;
  mpz_probab_prime_p : Z -> Z -> Z;
  mpz_urandomb_range :
    forall (st : randstate) (n : Z), 0 <= n -> 0 <= fst (mpz_urandomb st n) < 2 ^ n
}.

(** ** Stores, worlds and outcomes *)

Definition handle : Type := nat.
Definition store : Type := handle -> Z.

Definition upd (m : store) (h : handle) (v : Z) : store :=
  fun h' => if Nat.eqb h' h then v else m h'.

(** What [main] prints: each value once (the binary rendering of a
    pseudo-prime repeats its decimal one). *)
Inductive label : Type :=
| Exponent_e
| First_pseudo_prime
| Second_pseudo_prime
| Exponent_d.

Inductive event : Type :=
| Printed (l : label) (v : Z)
| Failure_creating_prime
| Error_exponent_not_relatively_prime
| Warning_exponent_too_small.

(** The two fatal conditions; both end the process with [exit(1)]. *)
Inductive fatal : Type :=
| RetryExhausted
| NotInvertible.

Definition NUMTESTS : Z := 50.


(** What the program reads, as [sscanf] and [time] deliver it: the [int]
    key length, an [int] seed or nothing (then the clock is read), and an
    [unsigned long] value for [e] or nothing (then [e] is drawn). *)
Record stdin : Type := {
  key_length : Z;
  seed_typed : option Z;
  time_now : Z;
  exponent_typed : option Z
}.

Section Program.

Context {G : GmpOracle}.

(** The big integers reachable by the callers, the global [rndState], and
    the output written so far. *)
Record world : Type := {
  mem : store;
  rndState : randstate;
  out : list event
}.

Definition set_mem (w : world) (h : handle) (v : Z) : world :=
  {| mem := upd (mem w) h v; rndState := rndState w; out := out w |}.

Definition set_rndState (w : world) (st : randstate) : world :=
  {| mem := mem w; rndState := st; out := out w |}.

Definition emit (w : world) (e : event) : world :=
  {| mem := mem w; rndState := rndState w; out := out w ++ [e] |}.

Inductive result (A : Type) : Type :=
| Done (a : A) (w : world)
| Exit1 (f : fatal) (w : world)
| OutOfFuel.

Arguments Done {A} a w.
Arguments Exit1 {A} f w.
Arguments OutOfFuel {A}.

Definition M (A : Type) : Type := world -> result A.

Definition ret {A : Type} (a : A) : M A := fun w => Done a w.

Definition bind {A B : Type} (m : M A) (k : A -> M B) : M B :=
  fun w =>
    match m w with
    | Done a w' => k a w'
    | Exit1 f w' => Exit1 f w'
    | OutOfFuel => OutOfFuel
    end.

Definition printf (l : label) (h : handle) : M Z :=
  fun w => Done 0 (emit w (Printed l (mem w h))).

(** ** fnCreate_pseudo_prime *)

(** The body of [while (1)]; [i] is the iteration counter of the C code.
    [Done n w] is the [break] with the local [n].  The counter and
    [5 * nNumBits] are [int]s in C: this is the loop of the program for
    [1 <= nNumBits] and [5 * nNumBits <= INT_MAX]. *)
Fixpoint fnCreate_pseudo_prime_loop (mpzE mpzCompare : handle)
    (nNumBits nNumTests flTestDiff : Z) (fuel : nat) (i : Z) (w : world)
    {struct fuel} : result Z :=
  match fuel with
  | O => OutOfFuel
  | S fuel' =>
      let mpzOneShifted := 1 in
      let mpzOneShifted := mpz_mul_2exp mpzOneShifted (nNumBits - 1) in
      let '(n, st) := mpz_urandomb (rndState w) (nNumBits - 1) in
      let w := set_rndState w st in
      let n := n + mpzOneShifted in
      let n := if mpz_odd_p n =? 0 then n + 1 else n in
      let j := if nNumBits <=? 100 then 0 else nNumBits - 100 in
      if (flTestDiff =? 1)
         && (mpz_cmp (Z.abs (n - mem w mpzCompare)) (mpz_mul_2exp 1 j) <=? 0)
      then fnCreate_pseudo_prime_loop mpzE mpzCompare nNumBits nNumTests
             flTestDiff fuel' i w
      else
        let nSq := n * n in
        if mpz_cmp nSq (mpz_mul_2exp 1 (2 * nNumBits - 1)) <? 0
        then fnCreate_pseudo_prime_loop mpzE mpzCompare nNumBits nNumTests
               flTestDiff fuel' i w
        else
          let temp := mpz_gcd (n - 1) (mem w mpzE) in
          if (mpz_cmp_ui temp 1 =? 0)
             && (mpz_probab_prime_p n nNumTests >=? 1)
          then Done n w
          else
            let i := i + 1 in
            if i >=? 5 * nNumBits
            then Exit1 RetryExhausted (emit w Failure_creating_prime)
            else fnCreate_pseudo_prime_loop mpzE mpzCompare nNumBits
                   nNumTests flTestDiff fuel' i w
  end.

Definition fnCreate_pseudo_prime (mpzPrime mpzE mpzCompare : handle)
    (nNumBits nNumTests flTestDiff : Z) (fuel : nat) : M Z :=
  bind (fnCreate_pseudo_prime_loop mpzE mpzCompare nNumBits nNumTests
          flTestDiff fuel 0)
       (fun n w => Done 0 (set_mem w mpzPrime n)).

(** ** fnCompute_exponent_d *)

(** This is the function of the program for [0 <= nNumBits], the bit count
    of the shift that computes the bound of the warning. *)
Definition fnCompute_exponent_d (mpzP1 mpzE mpzP2 mpzD : handle)
    (nNumBits : Z) : M Z :=
  fun w =>
    let temp := mem w mpzP1 * mem w mpzP2 in
    let temp := temp - mem w mpzP1 in
    let temp := temp - mem w mpzP2 in
    let temp := temp + 1 in
    match mpz_invert (mem w mpzE) temp with
    | None => Exit1 NotInvertible (emit w Error_exponent_not_relatively_prime)
    | Some n =>
        let mpzOneShifted := mpz_mul_2exp 1 nNumBits in
        let w := if mpz_cmp n mpzOneShifted <? 0
                 then emit w Warning_exponent_too_small
                 else w in
        Done 0 (set_mem w mpzD n)
    end.

(** ** fnGet_key_length, fnGet_rand_seed, fnGet_exponent_e *)

Definition fnGet_key_length (inp : stdin) : Z := key_length inp.

Definition fnGet_rand_seed (inp : stdin) : Z :=
  match seed_typed inp with
  | Some nSeed => nSeed
  | None => time_now inp
  end.

(** The [while (1)] of the random branch; [Done temp w] is the [break].
    In the other branch [nValE] is the [unsigned long] that [sscanf] has
    stored. *)
Fixpoint fnGet_exponent_e_loop (mpzBoundE : Z) (fuel : nat) (w : world)
    {struct fuel} : result Z :=
  match fuel with
  | O => OutOfFuel
  | S fuel' =>
      let '(temp, st) := mpz_urandomb (rndState w) 256 in
      let w := set_rndState w st in
      if negb (mpz_even_p temp =? 0)
      then fnGet_exponent_e_loop mpzBoundE fuel' w
      else if mpz_cmp_ui temp 65536 <? 0
      then fnGet_exponent_e_loop mpzBoundE fuel' w
      else if mpz_cmp temp mpzBoundE >? 0
      then fnGet_exponent_e_loop mpzBoundE fuel' w
      else Done temp w
  end.

Definition fnGet_exponent_e (mpzE : handle) (typed : option Z) (fuel : nat)
    : M Z :=
  match typed with
  | Some nValE => fun w => Done 0 (set_mem w mpzE nValE)
  | None =>
      let mpzBoundE := mpz_mul_2exp 1 256 in
      bind (fnGet_exponent_e_loop mpzBoundE fuel)
           (fun temp w => Done 0 (set_mem w mpzE temp))
  end.

(** ** main *)

(** The [mpz_t] variables of [main]. *)
Definition main_mpzP1 : handle := 0%nat.
Definition main_mpzP2 : handle := 1%nat.
Definition main_mpzE : handle := 2%nat.
Definition main_mpzD : handle := 3%nat.
Definition main_mpzBoundE : handle := 4%nat.
Definition main_t : handle := 5%nat.

(** Steps 2 and 3 of [main]: the initial values and the seeded generator. *)
Definition main_init (nSeed : Z) : world :=
  let m : store := fun _ => 0 in
  let m := upd m main_mpzP1 0 in
  let m := upd m main_mpzP2 0 in
  let m := upd m main_mpzE 1 in
  let m := upd m main_mpzD 1 in
  let m := upd m main_mpzBoundE 1 in
  let m := upd m main_t 1 in
  {| mem := m; rndState := gmp_randseed_ui nSeed; out := [] |}.

Definition main (fuel : nat) (inp : stdin) : result Z :=
  let nBitLen := fnGet_key_length inp in
  let nHalfLen := Z.quot nBitLen 2 in
  let nSeed := fnGet_rand_seed inp in
  (bind (fnGet_exponent_e main_mpzE (exponent_typed inp) fuel) (fun _ =>
   bind (printf Exponent_e main_mpzE) (fun _ =>
   bind (fnCreate_pseudo_prime main_mpzP1 main_mpzE main_mpzP2 nHalfLen
           NUMTESTS 0 fuel) (fun _ =>
   bind (printf First_pseudo_prime main_mpzP1) (fun _ =>
   bind (fnCreate_pseudo_prime main_mpzP2 main_mpzE main_mpzP1 nHalfLen
           NUMTESTS 1 fuel) (fun _ =>
   bind (printf Second_pseudo_prime main_mpzP2) (fun _ =>
   bind (fnCompute_exponent_d main_mpzP1 main_mpzE main_mpzP2 main_mpzD
           nHalfLen) (fun _ =>
   bind (printf Exponent_d main_mpzD) (fun _ =>
   ret 0)))))))))
  (main_init nSeed).

(** ** Vocabulary of the specification *)

(** The candidate built from a draw [r] of [nNumBits - 1] bits: the top bit
    is forced by adding [2^(nNumBits-1)], then the parity is fixed. *)
Definition candidate (nNumBits r : Z) : Z :=
  let n := r + 2 ^ (nNumBits - 1) in
  if Z.odd n then n else n + 1.

(** What one iteration does with its candidate: [Restart] is a [continue]
    (difference or size filter), [Counted] reaches [i++], [Accept] is the
    [break]. *)
Inductive verdict : Type :=
| Restart
| Counted
| Accept.

Definition too_close (companion nNumBits n : Z) : bool :=
  Z.abs (n - companion) <=? 2 ^ Z.max 0 (nNumBits - 100).

Definition too_small (nNumBits n : Z) : bool :=
  n * n <? 2 ^ (2 * nNumBits - 1).

Definition judge (e companion nNumBits nNumTests flTestDiff n : Z) : verdict :=
  if (flTestDiff =? 1) && too_close companion nNumBits n then Restart
  else if too_small nNumBits n then Restart
  else if (Z.gcd (n - 1) e =? 1) && (1 <=? mpz_probab_prime_p n nNumTests)
       then Accept
       else Counted.




Fixpoint rnd_after (bits : Z) (k : nat) (st : randstate) : randstate :=
  match k with
  | O => st
  | S k' => rnd_after bits k' (snd (mpz_urandomb st bits))
  end.

(** The draw number [k] (from zero) of a sequence of [bits]-bit draws. *)
Definition draw_at (bits : Z) (k : nat) (st : randstate) : Z :=
  fst (mpz_urandomb (rnd_after bits k st) bits).






(** A computation is over when it returned or exited. *)
Definition is_over {A : Type} (r : result A) : bool :=
  match r with
  | OutOfFuel => false
  | _ => true
  end.

(** The values [e], [p], [q], [d] that a returning run leaves behind. *)
Definition key_of {A : Type} (r : result A) : option (Z * Z * Z * Z) :=
  match r with
  | Done _ w =>
      Some (mem w main_mpzE, mem w main_mpzP1, mem w main_mpzP2, mem w main_mpzD)
  | _ => None
  end.

(** The three ways in which a computation can be observed: whether it
    returned, with which fatal condition it exited, and what it wrote. *)
Definition is_done {A : Type} (r : result A) : bool :=
  match r with
  | Done _ _ => true
  | _ => false
  end.

Definition failure_of {A : Type} (r : result A) : option fatal :=
  match r with
  | Exit1 f _ => Some f
  | _ => None
  end.

Definition output_of {A : Type} (r : result A) : list event :=
  match r with
  | Done _ w => out w
  | Exit1 _ w => out w
  | OutOfFuel => []
  end.

(** The values written to stdout, with their labels and in their order,
    and whether the warning was written (to stderr). *)
Definition printed_values (l : list event) : list (label * Z) :=
  flat_map (fun ev => match ev with
                      | Printed lab v => [(lab, v)]
                      | _ => []
                      end) l.

Definition warned (l : list event) : bool :=
  existsb (fun ev => match ev with
                     | Warning_exponent_too_small => true
                     | _ => false
                     end) l.

(** [m'] agrees with [m] wherever [m] is over. *)
Definition extends {A : Type} (m m' : M A) : Prop :=
  forall w : world, m w <> OutOfFuel -> m' w = m w.

(** A draw that ends the loop of [fnGet_exponent_e]. *)
Definition good_exponent (temp : Z) : bool :=
  Z.odd temp && (65536 <=? temp) && (temp <=? 2 ^ 256).

End Program.

Arguments Done {G A} a w.
Arguments Exit1 {G A} f w.
Arguments OutOfFuel {G A}.

(** ** A scripted instance of the oracle

    The generator state is a list of values still to be delivered and the
    state of a linear congruential generator that takes over once the list
    is used up; every value is reduced to the requested number of bits.
    Seeding gives the empty list and the seed as the state.  The primality
    test is trial division, which answers 2 or 0. *)

Definition lcg_next (x : Z) : Z :=
  (x * 6364136223846793005 + 1442695040888963407) mod 2 ^ 64.

Definition trial_division (n : Z) : bool :=
  (2 <=? n)
  && forallb (fun d => negb (n mod Z.of_nat d =? 0)) (seq 2 (Z.to_nat n - 2)).

Definition scripted_urandomb (st : list Z * Z) (n : Z) : Z * (list Z * Z) :=
  match fst st with
  | v :: script => (v mod 2 ^ n, (script, snd st))
  | [] => (lcg_next (snd st) mod 2 ^ n, ([], lcg_next (snd st)))
  end.

Definition Scripted : GmpOracle.
Proof.
  refine {| randstate := list Z * Z;
            gmp_randseed_ui := fun seed => ([], seed);
            mpz_urandomb := scripted_urandomb;
            mpz_probab_prime_p := fun n _ => if trial_division n then 2 else 0 |}.
  abstract (intros st n Hn; unfold scripted_urandomb;
            destruct (fst st); cbn [fst]; apply Z.mod_pos_bound;
            apply Z.pow_pos_nonneg; lia).
Defined.

(** A world of the scripted oracle in which the variables of [main] hold
    the given [p], [q] and [e], with the draws still to be delivered. *)
Definition scripted_world (p q e : Z) (script : list Z) : @world Scripted :=
  @Build_world Scripted
    (upd (upd (upd (fun _ => 0) main_mpzP1 p) main_mpzP2 q) main_mpzE e)
    (script, 0) [].

(** The world in which a search that started in [w] returns [n] into [h]
    with the draws [script] left. *)
Definition returned (w : @world Scripted) (script : list Z) (h : handle)
    (n : Z) : @world Scripted :=
  set_mem (set_rndState w (script, 0)) h n.

(** A session: key length 10, seed 2, exponent 3, all typed. *)
Definition typed_session : stdin :=
  {| key_length := 10; seed_typed := Some 2; time_now := 1665114440;
     exponent_typed := Some 3 |}.

(** Three more sessions: key length 10 with seed 8 and a drawn exponent;
    key length 4 with the even exponent 2; key length 6 with exponent 5. *)
Definition drawn_session : stdin :=
  {| key_length := 10; seed_typed := Some 8; time_now := 1665114440;
     exponent_typed := None |}.

Definition even_session : stdin :=
  {| key_length := 4; seed_typed := Some 1; time_now := 1665114440;
     exponent_typed := Some 2 |}.

Definition short_session : stdin :=
  {| key_length := 6; seed_typed := Some 2; time_now := 1665114440;
     exponent_typed := Some 5 |}.


(** ** Facts about the GMP functions *)

Lemma mpz_cmp_le (a b : Z) : (mpz_cmp a b <=? 0) = (a <=? b).
Proof.
  unfold mpz_cmp. rewrite (Z.leb_compare a b).
  destruct (a ?= b); reflexivity.
Qed.

Lemma mpz_cmp_lt (a b : Z) : (mpz_cmp a b <? 0) = (a <? b).
Proof.
  unfold mpz_cmp. rewrite (Z.ltb_compare a b).
  destruct (a ?= b); reflexivity.
Qed.

Lemma mpz_cmp_gt (a b : Z) : (mpz_cmp a b >? 0) = (b <? a).
Proof.
  unfold mpz_cmp. rewrite (Z.ltb_compare b a), (Z.compare_antisym a b).
  destruct (a ?= b); reflexivity.
Qed.

Lemma mpz_cmp_eq (a b : Z) : (mpz_cmp a b =? 0) = (a =? b).
Proof.
  unfold mpz_cmp. rewrite (Z.eqb_compare a b).
  destruct (a ?= b); reflexivity.
Qed.

Lemma mpz_odd_p_zero (n : Z) : (mpz_odd_p n =? 0) = negb (Z.odd n).
Proof. unfold mpz_odd_p. destruct (Z.odd n); reflexivity. Qed.

Lemma mpz_even_p_zero (n : Z) : (mpz_even_p n =? 0) = Z.odd n.
Proof.
  unfold mpz_even_p. rewrite <- Z.negb_even.
  destruct (Z.even n); reflexivity.
Qed.

Lemma mpz_mul_2exp_one (k : Z) : mpz_mul_2exp 1 k = 2 ^ k.
Proof. unfold mpz_mul_2exp. apply Z.mul_1_l. Qed.

Lemma mpz_invert_none (x m : Z) : mpz_invert x m = None <-> Z.gcd x m <> 1.
Proof.
  unfold mpz_invert. destruct (Z.eqb_spec (Z.gcd x m) 1) as [E | E].
  - split; [discriminate | contradiction].
  - split; [intros _; exact E | reflexivity].
Qed.

Lemma mpz_invert_some (x m : Z) :
  Z.gcd x m = 1 -> mpz_invert x m = Some (Z.invmod x (Z.abs m)).
Proof.
  intros E. unfold mpz_invert. rewrite E. reflexivity.
Qed.

(** The contract of the manual for a positive modulus. *)
Lemma mpz_invert_inverse (x m d : Z) :
  0 < m -> mpz_invert x m = Some d ->
  0 <= d < m /\ (d * x) mod m = 1 mod m.
Proof.
  intros Hm H. unfold mpz_invert in H.
  destruct (Z.eqb_spec (Z.gcd x m) 1) as [E | E]; [| discriminate].
  injection H as <-.
  rewrite (Z.abs_eq m) by lia.
  split.
  - rewrite <- (Z.mod_invmod m x). apply Z.mod_pos_bound. exact Hm.
  - apply Z.invmod_coprime'. exact E.
Qed.

(** ** One iteration of each loop *)

Section Properties.

Context {G : GmpOracle}.

Lemma bit_count_j (nNumBits : Z) :
  (if nNumBits <=? 100 then 0 else nNumBits - 100) = Z.max 0 (nNumBits - 100).
Proof. destruct (Z.leb_spec nNumBits 100); lia. Qed.

Lemma fnCreate_pseudo_prime_loop_step
    (mpzE mpzCompare : handle) (nNumBits nNumTests flTestDiff : Z)
    (fuel : nat) (i : Z) (w : world) :
  fnCreate_pseudo_prime_loop mpzE mpzCompare nNumBits nNumTests flTestDiff
    (S fuel) i w =
  let n := candidate nNumBits (draw_at (nNumBits - 1) 0 (rndState w)) in
  let w1 := set_rndState w (rnd_after (nNumBits - 1) 1 (rndState w)) in
  match judge (mem w mpzE) (mem w mpzCompare) nNumBits nNumTests flTestDiff n with
  | Restart =>
      fnCreate_pseudo_prime_loop mpzE mpzCompare nNumBits nNumTests flTestDiff
        fuel i w1
  | Counted =>
      if i + 1 >=? 5 * nNumBits
      then Exit1 RetryExhausted (emit w1 Failure_creating_prime)
      else fnCreate_pseudo_prime_loop mpzE mpzCompare nNumBits nNumTests
             flTestDiff fuel (i + 1) w1
  | Accept => Done n w1
  end.
Proof.
  cbn [fnCreate_pseudo_prime_loop].
  unfold draw_at, candidate, judge, too_close, too_small.
  cbn [rnd_after].
  destruct (mpz_urandomb (rndState w) (nNumBits - 1)) as [r st].
  cbn [fst snd set_rndState mem rndState].
  rewrite mpz_odd_p_zero, !mpz_mul_2exp_one, mpz_cmp_le, mpz_cmp_lt, bit_count_j.
  unfold mpz_cmp_ui, mpz_gcd. rewrite mpz_cmp_eq.
  rewrite (Z.geb_leb (mpz_probab_prime_p _ _) 1).
  destruct (Z.odd (r + 2 ^ (nNumBits - 1))); cbn [negb];
    repeat match goal with
           | |- context [if ?b then _ else _] => destruct b; cbn [andb]
           end; reflexivity.
Qed.

Lemma fnGet_exponent_e_loop_step (fuel : nat) (w : world) :
  fnGet_exponent_e_loop (mpz_mul_2exp 1 256) (S fuel) w =
  let temp := draw_at 256 0 (rndState w) in
  let w1 := set_rndState w (rnd_after 256 1 (rndState w)) in
  if good_exponent temp then Done temp w1
  else fnGet_exponent_e_loop (mpz_mul_2exp 1 256) fuel w1.
Proof.
  cbn [fnGet_exponent_e_loop]. unfold draw_at, good_exponent. cbn [rnd_after].
  destruct (mpz_urandomb (rndState w) 256) as [temp st]. cbn [fst snd].
  unfold mpz_cmp_ui.
  rewrite mpz_even_p_zero, mpz_cmp_lt, mpz_cmp_gt, mpz_mul_2exp_one.
  rewrite (Z.leb_antisym temp 65536), (Z.leb_antisym (2 ^ 256) temp).
  destruct (Z.odd temp); cbn [negb andb]; [| reflexivity].
  destruct (temp <? 65536); cbn [negb andb]; [reflexivity |].
  destruct (2 ^ 256 <? temp); reflexivity.
Qed.

(** ** The candidate and the filters *)

Lemma candidate_odd (b r : Z) : Z.odd (candidate b r) = true.
Proof.
  unfold candidate. cbv zeta.
  destruct (Z.odd (r + 2 ^ (b - 1))) eqn:E; [exact E |].
  rewrite Z.odd_add, E. reflexivity.
Qed.

Lemma candidate_range (b r : Z) :
  1 <= b -> 0 <= r < 2 ^ (b - 1) -> 2 ^ (b - 1) <= candidate b r < 2 ^ b.
Proof.
  intros Hb Hr.
  assert (Hp : 2 ^ b = 2 * 2 ^ (b - 1)).
  { rewrite <- Z.pow_succ_r by lia. f_equal. lia. }
  unfold candidate. cbv zeta.
  destruct (Z.odd (r + 2 ^ (b - 1))) eqn:E; [lia |].
  assert (Hev : Z.even (r + 2 ^ (b - 1)) = true).
  { rewrite <- Z.negb_odd, E. reflexivity. }
  apply Z.even_spec in Hev. destruct Hev as [h Hh]. lia.
Qed.

Lemma judge_accept (e c b t fl n : Z) :
  judge e c b t fl n = Accept ->
  (fl = 1 -> 2 ^ Z.max 0 (b - 100) < Z.abs (n - c))
  /\ 2 ^ (2 * b - 1) <= n * n
  /\ Z.gcd (n - 1) e = 1
  /\ 1 <= mpz_probab_prime_p n t.
Proof.
  unfold judge, too_close, too_small.
  destruct (Z.eqb_spec fl 1) as [Hfl | Hfl]; cbn [andb].
  - destruct (Z.leb_spec (Z.abs (n - c)) (2 ^ Z.max 0 (b - 100))); [discriminate |].
    destruct (Z.ltb_spec (n * n) (2 ^ (2 * b - 1))); [discriminate |].
    destruct (Z.eqb_spec (Z.gcd (n - 1) e) 1); cbn [andb]; [| discriminate].
    destruct (Z.leb_spec 1 (mpz_probab_prime_p n t)); [| discriminate].
    intros _. repeat split; auto.
  - destruct (Z.ltb_spec (n * n) (2 ^ (2 * b - 1))); [discriminate |].
    destruct (Z.eqb_spec (Z.gcd (n - 1) e) 1); cbn [andb]; [| discriminate].
    destruct (Z.leb_spec 1 (mpz_probab_prime_p n t)); [| discriminate].
    intros _. repeat split; auto. intros; contradiction.
Qed.

(** A [break] of the loop leaves with an accepted candidate built from a
    draw of the generator; the loop writes nothing but the generator state. *)
Lemma fnCreate_pseudo_prime_loop_done
    (mpzE mpzCompare : handle) (b t fl : Z) (fuel : nat) :
  forall (i : Z) (w : world) (n : Z) (w' : world),
    fnCreate_pseudo_prime_loop mpzE mpzCompare b t fl fuel i w = Done n w' ->
    (exists st : randstate, n = candidate b (fst (mpz_urandomb st (b - 1))))
    /\ judge (mem w mpzE) (mem w mpzCompare) b t fl n = Accept
    /\ mem w' = mem w /\ out w' = out w.
Proof.
  induction fuel as [| fuel IH]; intros i w n w' H.
  - discriminate H.
  - rewrite fnCreate_pseudo_prime_loop_step in H. cbv zeta in H.
    destruct (judge (mem w mpzE) (mem w mpzCompare) b t fl
                (candidate b (draw_at (b - 1) 0 (rndState w)))) eqn:J.
    + apply IH in H. exact H.
    + destruct (i + 1 >=? 5 * b); [discriminate H |].
      apply IH in H. exact H.
    + injection H as <- <-. repeat split; auto.
      exists (rndState w). reflexivity.
Qed.

Lemma fnCreate_pseudo_prime_done
    (mpzPrime mpzE mpzCompare : handle) (b t fl : Z) (fuel : nat)
    (w : world) (r : Z) (w' : world) :
  fnCreate_pseudo_prime mpzPrime mpzE mpzCompare b t fl fuel w = Done r w' ->
  exists (n : Z) (w1 : world),
    fnCreate_pseudo_prime_loop mpzE mpzCompare b t fl fuel 0 w = Done n w1
    /\ r = 0 /\ w' = set_mem w1 mpzPrime n /\ mem w' mpzPrime = n.
Proof.
  unfold fnCreate_pseudo_prime, bind.
  destruct (fnCreate_pseudo_prime_loop mpzE mpzCompare b t fl fuel 0 w)
    as [n w1 | f w1 |]; try discriminate.
  intros H. injection H as <- <-. exists n, w1. repeat split.
  cbn. unfold upd. rewrite Nat.eqb_refl. reflexivity.
Qed.

(** ** C1: bit length and parity of an accepted candidate *)

(** C1.  A candidate that [fnCreate_pseudo_prime] returns for the bit length
    [b >= 2] lies in [2^(b-1), 2^b) and is odd: neither the forced top bit
    nor the parity fix gives it [b + 1] significant bits. *)
Theorem fnCreate_pseudo_prime_bit_length
    (mpzPrime mpzE mpzCompare : handle) (b nNumTests flTestDiff : Z)
    (fuel : nat) (w : world) (r : Z) (w' : world) :
  2 <= b ->
  fnCreate_pseudo_prime mpzPrime mpzE mpzCompare b nNumTests flTestDiff fuel w
    = Done r w' ->
  2 ^ (b - 1) <= mem w' mpzPrime < 2 ^ b /\ Z.odd (mem w' mpzPrime) = true.
Proof.
  intros Hb H.
  apply fnCreate_pseudo_prime_done in H.
  destruct H as (n & w1 & Hloop & _ & _ & Hn). rewrite Hn.
  apply fnCreate_pseudo_prime_loop_done in Hloop.
  destruct Hloop as ((st & ->) & _).
  split.
  - apply candidate_range; [lia |].
    apply mpz_urandomb_range. lia.
  - apply candidate_odd.
Qed.

(** ** C4: coprimality with the exponent and the primality test *)

(** C4.  A candidate [n] that [fnCreate_pseudo_prime] returns has
    [gcd (n - 1, e) = 1] and the primality test with [nNumTests] rounds
    answered at least 1 for it; a candidate that fails either is not
    returned. *)
Theorem fnCreate_pseudo_prime_coprime_and_tested
    (mpzPrime mpzE mpzCompare : handle) (b nNumTests flTestDiff : Z)
    (fuel : nat) (w : world) (r : Z) (w' : world) :
  fnCreate_pseudo_prime mpzPrime mpzE mpzCompare b nNumTests flTestDiff fuel w
    = Done r w' ->
  Z.gcd (mem w' mpzPrime - 1) (mem w mpzE) = 1
  /\ mpz_probab_prime_p (mem w' mpzPrime) nNumTests >= 1.
Proof.
  intros H.
  apply fnCreate_pseudo_prime_done in H.
  destruct H as (n & w1 & Hloop & _ & _ & Hn). rewrite Hn.
  apply fnCreate_pseudo_prime_loop_done in Hloop.
  destruct Hloop as (_ & J & _).
  apply judge_accept in J. destruct J as (_ & _ & Hg & Hp).
  split; [exact Hg | lia].
Qed.

(** ** C2: the ceiling on the number of attempts *)







(** ** C3: the pair of primes of one run *)

Lemma product_of_large_squares (p q T : Z) :
  0 < p -> 0 < q -> T <= p * p -> T <= q * q -> T <= p * q.
Proof.
  intros Hp Hq Hpp Hqq.
  destruct (Z.le_gt_cases p q) as [Hle | Hgt].
  - apply Z.le_trans with (p * p); [exact Hpp |].
    apply Z.mul_le_mono_nonneg_l; lia.
  - apply Z.le_trans with (q * q); [exact Hqq |].
    apply Z.mul_le_mono_nonneg_r; lia.
Qed.

Lemma upd_same (m : store) (h : handle) (v : Z) : upd m h v h = v.
Proof. unfold upd. rewrite Nat.eqb_refl. reflexivity. Qed.

Lemma upd_other (m : store) (h h' : handle) (v : Z) :
  h' <> h -> upd m h v h' = m h'.
Proof.
  intros Hne. unfold upd.
  destruct (Nat.eqb_spec h' h); [contradiction | reflexivity].
Qed.

(** C3.  Let [p] be returned by a first call without the difference test
    and [q] by a second call, for the same bit length [b], that receives [p]
    as its companion with the difference test enabled (steps 5 and 6 of
    [main]; between the calls the value of [p] is not touched).  Then
    [p <> q], [|p - q| > 2^max(0, b-100)] and [p * q >= 2^(2b-1)]. *)
Theorem prime_pair_separated_and_large
    (mpzP1 mpzP2 mpzE : handle) (b nNumTests : Z) (fuel1 fuel2 : nat)
    (w w1 v w2 : world) (r1 r2 : Z) :
  1 <= b ->
  mpzP1 <> mpzP2 ->
  fnCreate_pseudo_prime mpzP1 mpzE mpzP2 b nNumTests 0 fuel1 w = Done r1 w1 ->
  mem v mpzP1 = mem w1 mpzP1 ->
  fnCreate_pseudo_prime mpzP2 mpzE mpzP1 b nNumTests 1 fuel2 v = Done r2 w2 ->
  mem w2 mpzP1 <> mem w2 mpzP2
  /\ Z.abs (mem w2 mpzP1 - mem w2 mpzP2) > 2 ^ Z.max 0 (b - 100)
  /\ mem w2 mpzP1 * mem w2 mpzP2 >= 2 ^ (2 * b - 1).
Proof.
  intros Hb Hne H1 Hv H2.
  apply fnCreate_pseudo_prime_done in H1.
  destruct H1 as (p & u1 & L1 & _ & _ & Ep).
  apply fnCreate_pseudo_prime_loop_done in L1.
  destruct L1 as ((st1 & Est1) & J1 & _).
  apply fnCreate_pseudo_prime_done in H2.
  destruct H2 as (q & u2 & L2 & _ & Ew2 & Eq).
  apply fnCreate_pseudo_prime_loop_done in L2.
  destruct L2 as ((st2 & Est2) & J2 & M2 & _).
  assert (Ep2 : mem w2 mpzP1 = p).
  { rewrite Ew2. cbn [set_mem mem]. rewrite upd_other by exact Hne.
    rewrite M2, Hv. exact Ep. }
  rewrite Ep2, Eq.
  rewrite Hv, Ep in J2.
  apply judge_accept in J1. destruct J1 as (_ & Sp & _).
  apply judge_accept in J2. destruct J2 as (D & Sq & _).
  specialize (D eq_refl).
  assert (Rp : 2 ^ (b - 1) <= p < 2 ^ b).
  { rewrite Est1. apply candidate_range; [lia |].
    apply mpz_urandomb_range. lia. }
  assert (Rq : 2 ^ (b - 1) <= q < 2 ^ b).
  { rewrite Est2. apply candidate_range; [lia |].
    apply mpz_urandomb_range. lia. }
  assert (Pos : 0 < 2 ^ (b - 1)) by (apply Z.pow_pos_nonneg; lia).
  assert (Pj : 0 < 2 ^ Z.max 0 (b - 100)) by (apply Z.pow_pos_nonneg; lia).
  assert (Dpq : 2 ^ Z.max 0 (b - 100) < Z.abs (p - q)).
  { replace (p - q) with (- (q - p)) by lia. rewrite Z.abs_opp. exact D. }
  split; [| split].
  - intros E. rewrite E, Z.sub_diag in Dpq. cbn in Dpq. lia.
  - lia.
  - apply Z.le_ge. apply product_of_large_squares; lia.
Qed.

(** ** Independence of the bound on the iterations *)

Lemma extends_refl {A : Type} (m : M A) : extends m m.
Proof. intros w _. reflexivity. Qed.

Lemma extends_bind {A B : Type} (m m' : M A) (k k' : A -> M B) :
  extends m m' -> (forall a : A, extends (k a) (k' a)) ->
  extends (bind m k) (bind m' k').
Proof.
  intros Hm Hk w. unfold bind. intros H.
  destruct (m w) as [a w1 | f w1 |] eqn:E.
  - rewrite (Hm w) by (rewrite E; discriminate). rewrite E.
    apply Hk. exact H.
  - rewrite (Hm w) by (rewrite E; discriminate). rewrite E. reflexivity.
  - contradiction.
Qed.

Lemma fnCreate_pseudo_prime_loop_extends
    (mpzE mpzCompare : handle) (b t fl : Z) (fuel : nat) :
  forall (fuel' : nat) (i : Z),
    (fuel <= fuel')%nat ->
    extends (fnCreate_pseudo_prime_loop mpzE mpzCompare b t fl fuel i)
            (fnCreate_pseudo_prime_loop mpzE mpzCompare b t fl fuel' i).
Proof.
  induction fuel as [| fuel IH]; intros fuel' i Hle w H.
  - contradiction.
  - destruct fuel' as [| fuel']; [lia |].
    assert (Hle' : (fuel <= fuel')%nat) by lia.
    rewrite !fnCreate_pseudo_prime_loop_step in *. cbv zeta in *.
    destruct (judge (mem w mpzE) (mem w mpzCompare) b t fl
                (candidate b (draw_at (b - 1) 0 (rndState w)))).
    + apply IH; assumption.
    + destruct (i + 1 >=? 5 * b); [reflexivity |].
      apply IH; assumption.
    + reflexivity.
Qed.

Lemma fnGet_exponent_e_loop_extends (fuel : nat) :
  forall fuel' : nat,
    (fuel <= fuel')%nat ->
    extends (fnGet_exponent_e_loop (mpz_mul_2exp 1 256) fuel)
            (fnGet_exponent_e_loop (mpz_mul_2exp 1 256) fuel').
Proof.
  induction fuel as [| fuel IH]; intros fuel' Hle w H.
  - contradiction.
  - destruct fuel' as [| fuel']; [lia |].
    assert (Hle' : (fuel <= fuel')%nat) by lia.
    rewrite !fnGet_exponent_e_loop_step in *. cbv zeta in *.
    destruct (good_exponent (draw_at 256 0 (rndState w))); [reflexivity |].
    apply IH; assumption.
Qed.

Lemma fnCreate_pseudo_prime_extends
    (mpzPrime mpzE mpzCompare : handle) (b t fl : Z) (fuel fuel' : nat) :
  (fuel <= fuel')%nat ->
  extends (fnCreate_pseudo_prime mpzPrime mpzE mpzCompare b t fl fuel)
          (fnCreate_pseudo_prime mpzPrime mpzE mpzCompare b t fl fuel').
Proof.
  intros Hle. unfold fnCreate_pseudo_prime.
  apply extends_bind.
  - apply fnCreate_pseudo_prime_loop_extends. exact Hle.
  - intros n. apply extends_refl.
Qed.

Lemma fnGet_exponent_e_extends
    (mpzE : handle) (typed : option Z) (fuel fuel' : nat) :
  (fuel <= fuel')%nat ->
  extends (fnGet_exponent_e mpzE typed fuel) (fnGet_exponent_e mpzE typed fuel').
Proof.
  intros Hle. unfold fnGet_exponent_e. destruct typed as [nValE |].
  - apply extends_refl.
  - apply extends_bind.
    + apply fnGet_exponent_e_loop_extends. exact Hle.
    + intros n. apply extends_refl.
Qed.

Lemma main_extends (fuel fuel' : nat) (inp : stdin) :
  (fuel <= fuel')%nat ->
  main fuel inp <> OutOfFuel -> main fuel' inp = main fuel inp.
Proof.
  intros Hle. unfold main.
  apply extends_bind; [apply fnGet_exponent_e_extends; exact Hle | intros _].
  apply extends_bind; [apply extends_refl | intros _].
  apply extends_bind; [apply fnCreate_pseudo_prime_extends; exact Hle | intros _].
  apply extends_bind; [apply extends_refl | intros _].
  apply extends_bind; [apply fnCreate_pseudo_prime_extends; exact Hle | intros _].
  apply extends_refl.
Qed.

Lemma is_over_true {A : Type} (r : result A) :
  is_over r = true -> r <> OutOfFuel.
Proof. intros H E. rewrite E in H. discriminate H. Qed.

(** ** C5, C6, C9: the private exponent *)

Lemma phi_expanded (p q : Z) : p * q - p - q + 1 = (p - 1) * (q - 1).
Proof. ring. Qed.

(** C5, amended.  For [p, q >= 1] with [(p-1)(q-1) >= 2], [e] coprime to
    [(p-1)(q-1)] and a bit count [nNumBits >= 0], [fnCompute_exponent_d]
    returns and stores a [d] with [0 <= d < (p-1)(q-1)] and
    [(d * e) mod ((p-1)(q-1)) = 1]; the modulus it computes,
    [p*q - p - q + 1], equals [(p-1)(q-1)]. *)
Theorem fnCompute_exponent_d_inverse
    (mpzP1 mpzE mpzP2 mpzD : handle) (nNumBits : Z) (w : world) (p q e : Z) :
  mem w mpzP1 = p -> mem w mpzP2 = q -> mem w mpzE = e ->
  1 <= p -> 1 <= q -> 2 <= (p - 1) * (q - 1) ->
  Z.gcd e ((p - 1) * (q - 1)) = 1 ->
  0 <= nNumBits ->
  exists w' : world,
    fnCompute_exponent_d mpzP1 mpzE mpzP2 mpzD nNumBits w = Done 0 w'
    /\ (mem w' mpzD * e) mod ((p - 1) * (q - 1)) = 1
    /\ 0 <= mem w' mpzD < (p - 1) * (q - 1)
    /\ p * q - p - q + 1 = (p - 1) * (q - 1).
Proof.
  intros Ep Eq Ee Hp Hq Hphi Hg _.
  unfold fnCompute_exponent_d. rewrite Ep, Eq, Ee, phi_expanded.
  pose proof (mpz_invert_some e ((p - 1) * (q - 1)) Hg) as Hi.
  rewrite Hi.
  apply mpz_invert_inverse in Hi; [| lia].
  destruct Hi as (Hr & Hm).
  rewrite Z.mod_1_l in Hm by lia.
  eexists. split; [reflexivity |].
  cbn [set_mem mem]. rewrite upd_same.
  repeat split; try apply Hr; auto.
Qed.

(** C6.  [fnCompute_exponent_d] fails, with [NotInvertible], if and only if
    [gcd (e, (p-1)(q-1)) <> 1]; no other fatal condition occurs; and for a
    bit count [nNumBits >= 0] it returns if and only if the gcd is 1. *)
Theorem fnCompute_exponent_d_fails_iff
    (mpzP1 mpzE mpzP2 mpzD : handle) (nNumBits : Z) (w : world) :
  ((exists (f : fatal) (w' : world),
       fnCompute_exponent_d mpzP1 mpzE mpzP2 mpzD nNumBits w = Exit1 f w')
   <-> Z.gcd (mem w mpzE) ((mem w mpzP1 - 1) * (mem w mpzP2 - 1)) <> 1)
  /\ (forall (f : fatal) (w' : world),
       fnCompute_exponent_d mpzP1 mpzE mpzP2 mpzD nNumBits w = Exit1 f w' ->
       f = NotInvertible)
  /\ (0 <= nNumBits ->
      ((exists w' : world,
          fnCompute_exponent_d mpzP1 mpzE mpzP2 mpzD nNumBits w = Done 0 w')
       <-> Z.gcd (mem w mpzE) ((mem w mpzP1 - 1) * (mem w mpzP2 - 1)) = 1)).
Proof.
  unfold fnCompute_exponent_d. rewrite phi_expanded.
  set (e := mem w mpzE).
  set (phi := (mem w mpzP1 - 1) * (mem w mpzP2 - 1)).
  destruct (mpz_invert e phi) as [d |] eqn:I.
  - assert (Hg : Z.gcd e phi = 1).
    { destruct (Z.eq_dec (Z.gcd e phi) 1) as [E | E]; [exact E |].
      apply mpz_invert_none in E. rewrite E in I. discriminate I. }
    split; [| split].
    + split; [intros (f & w' & H); discriminate H | intros H; contradiction].
    + intros f w' H. discriminate H.
    + intros _.
      split; [intros _; exact Hg | intros _; eexists; reflexivity].
  - apply mpz_invert_none in I.
    split; [| split].
    + split; [intros _; exact I | intros _; do 2 eexists; reflexivity].
    + intros f w' H. injection H as <- _. reflexivity.
    + intros _.
      split; [intros (w' & H); discriminate H | intros H; contradiction].
Qed.

(** C9.  When the inverse [d] exists and [d < 2^nNumBits], the function
    writes the warning and nothing else changes: it returns normally and
    stores [d] itself, as it does when no warning is due. *)
Theorem fnCompute_exponent_d_warning_only
    (mpzP1 mpzE mpzP2 mpzD : handle) (nNumBits : Z) (w : world) (d : Z) :
  mpz_invert (mem w mpzE) (mem w mpzP1 * mem w mpzP2 - mem w mpzP1
                           - mem w mpzP2 + 1) = Some d ->
  d < 2 ^ nNumBits ->
  fnCompute_exponent_d mpzP1 mpzE mpzP2 mpzD nNumBits w
  = Done 0 {| mem := upd (mem w) mpzD d;
              rndState := rndState w;
              out := out w ++ [Warning_exponent_too_small] |}.
Proof.
  intros Hi Hd. unfold fnCompute_exponent_d. rewrite Hi.
  rewrite mpz_cmp_lt, mpz_mul_2exp_one.
  destruct (Z.ltb_spec d (2 ^ nNumBits)); [reflexivity | lia].
Qed.

(** Without a warning the same value is stored in the same way. *)
Lemma fnCompute_exponent_d_no_warning
    (mpzP1 mpzE mpzP2 mpzD : handle) (nNumBits : Z) (w : world) (d : Z) :
  mpz_invert (mem w mpzE) (mem w mpzP1 * mem w mpzP2 - mem w mpzP1
                           - mem w mpzP2 + 1) = Some d ->
  2 ^ nNumBits <= d ->
  fnCompute_exponent_d mpzP1 mpzE mpzP2 mpzD nNumBits w
  = Done 0 {| mem := upd (mem w) mpzD d; rndState := rndState w; out := out w |}.
Proof.
  intros Hi Hd. unfold fnCompute_exponent_d. rewrite Hi.
  rewrite mpz_cmp_lt, mpz_mul_2exp_one.
  destruct (Z.ltb_spec d (2 ^ nNumBits)); [lia | reflexivity].
Qed.

(** ** C7: the random public exponent *)

Lemma good_exponent_spec (temp : Z) :
  good_exponent temp = true ->
  65536 <= temp <= 2 ^ 256 /\ Z.odd temp = true.
Proof.
  unfold good_exponent. intros H.
  apply andb_prop in H. destruct H as (H & Hu).
  apply andb_prop in H. destruct H as (Ho & Hl).
  apply Z.leb_le in Hu. apply Z.leb_le in Hl. auto.
Qed.

Lemma fnGet_exponent_e_loop_first (fuel : nat) :
  forall (k : nat) (w : world),
    (k < fuel)%nat ->
    (forall j : nat, (j < k)%nat -> good_exponent (draw_at 256 j (rndState w)) = false) ->
    good_exponent (draw_at 256 k (rndState w)) = true ->
    fnGet_exponent_e_loop (mpz_mul_2exp 1 256) fuel w
    = Done (draw_at 256 k (rndState w)) (set_rndState w (rnd_after 256 (S k) (rndState w))).
Proof.
  induction fuel as [| fuel IH]; intros k w Hk Hbad Hgood; [lia |].
  rewrite fnGet_exponent_e_loop_step. cbv zeta.
  destruct k as [| k].
  - rewrite Hgood. reflexivity.
  - rewrite (Hbad 0%nat) by lia.
    rewrite (IH k (set_rndState w (rnd_after 256 1 (rndState w)))).
    + reflexivity.
    + lia.
    + intros j Hj. apply (Hbad (S j)). lia.
    + exact Hgood.
Qed.

(** C7.  In the random branch, if draw number [k] of the 256-bit draws is
    the first that is odd and within [65536, 2^256], then with any bound
    above [k] on the iterations [fnGet_exponent_e] returns after exactly
    [k + 1] draws and stores that draw as [e]; this [e] is odd and
    [65536 <= e <= 2^256]. *)
Theorem fnGet_exponent_e_random
    (mpzE : handle) (fuel k : nat) (w : world) :
  (forall j : nat, (j < k)%nat -> good_exponent (draw_at 256 j (rndState w)) = false) ->
  good_exponent (draw_at 256 k (rndState w)) = true ->
  (k < fuel)%nat ->
  exists w' : world,
    fnGet_exponent_e mpzE None fuel w = Done 0 w'
    /\ mem w' mpzE = draw_at 256 k (rndState w)
    /\ rndState w' = rnd_after 256 (S k) (rndState w)
    /\ 65536 <= mem w' mpzE <= 2 ^ 256
    /\ Z.odd (mem w' mpzE) = true.
Proof.
  intros Hbad Hgood Hk.
  unfold fnGet_exponent_e, bind.
  rewrite (fnGet_exponent_e_loop_first fuel k w Hk Hbad Hgood).
  eexists. split; [reflexivity |].
  cbn [set_mem set_rndState mem rndState]. rewrite upd_same.
  pose proof (good_exponent_spec _ Hgood) as (Hr & Ho).
  repeat split; auto; apply Hr.
Qed.

(** Conversely, an exponent that is returned is such a first draw. *)
Lemma fnGet_exponent_e_loop_done (fuel : nat) :
  forall (w : world) (temp : Z) (w' : world),
    fnGet_exponent_e_loop (mpz_mul_2exp 1 256) fuel w = Done temp w' ->
    exists k : nat,
      (k < fuel)%nat
      /\ (forall j : nat, (j < k)%nat ->
                          good_exponent (draw_at 256 j (rndState w)) = false)
      /\ good_exponent (draw_at 256 k (rndState w)) = true
      /\ temp = draw_at 256 k (rndState w).
Proof.
  induction fuel as [| fuel IH]; intros w temp w' H; [discriminate H |].
  rewrite fnGet_exponent_e_loop_step in H. cbv zeta in H.
  destruct (good_exponent (draw_at 256 0 (rndState w))) eqn:E.
  - injection H as <- <-. exists 0%nat.
    repeat split; auto; lia.
  - apply IH in H. destruct H as (k & Hk & Hbad & Hgood & Et).
    exists (S k). repeat split; auto; try lia.
    intros [| j] Hj; [exact E |]. apply (Hbad j). lia.
Qed.

(** ** C10: what the two functions write *)

Lemma fnCreate_pseudo_prime_loop_exit
    (mpzE mpzCompare : handle) (b t fl : Z) (fuel : nat) :
  forall (i : Z) (w : world) (f : fatal) (w' : world),
    fnCreate_pseudo_prime_loop mpzE mpzCompare b t fl fuel i w = Exit1 f w' ->
    mem w' = mem w.
Proof.
  induction fuel as [| fuel IH]; intros i w f w' H.
  - discriminate H.
  - rewrite fnCreate_pseudo_prime_loop_step in H. cbv zeta in H.
    destruct (judge (mem w mpzE) (mem w mpzCompare) b t fl
                (candidate b (draw_at (b - 1) 0 (rndState w)))).
    + apply IH in H. exact H.
    + destruct (i + 1 >=? 5 * b).
      * injection H as _ <-. reflexivity.
      * apply IH in H. exact H.
    + discriminate H.
Qed.

(** C10.  A big integer held by a handle [h] other than the output handle
    keeps its value across a call, returning or failing:
    [fnCreate_pseudo_prime] writes [mpzPrime] and the generator state only,
    so the exponent and the companion are unchanged; [fnCompute_exponent_d]
    writes [mpzD] only, so [p], [q] and [e] are unchanged, and it leaves the
    generator state alone. *)
Theorem calls_write_only_their_output
    (mpzPrime mpzE mpzCompare : handle) (b nNumTests flTestDiff : Z)
    (fuel : nat) (mpzP1 mpzE' mpzP2 mpzD : handle) (nNumBits : Z)
    (w : world) (h : handle) :
  (forall (r : Z) (w' : world),
      fnCreate_pseudo_prime mpzPrime mpzE mpzCompare b nNumTests flTestDiff
        fuel w = Done r w' ->
      h <> mpzPrime -> mem w' h = mem w h)
  /\ (forall (f : fatal) (w' : world),
      fnCreate_pseudo_prime mpzPrime mpzE mpzCompare b nNumTests flTestDiff
        fuel w = Exit1 f w' ->
      mem w' h = mem w h)
  /\ (forall (r : Z) (w' : world),
      fnCompute_exponent_d mpzP1 mpzE' mpzP2 mpzD nNumBits w = Done r w' ->
      rndState w' = rndState w /\ (h <> mpzD -> mem w' h = mem w h))
  /\ (forall (f : fatal) (w' : world),
      fnCompute_exponent_d mpzP1 mpzE' mpzP2 mpzD nNumBits w = Exit1 f w' ->
      rndState w' = rndState w /\ mem w' h = mem w h).
Proof.
  split; [| split; [| split]].
  - intros r w' H Hne.
    apply fnCreate_pseudo_prime_done in H.
    destruct H as (n & w1 & L & _ & -> & _).
    apply fnCreate_pseudo_prime_loop_done in L. destruct L as (_ & _ & Em & _).
    cbn [set_mem mem]. rewrite upd_other by exact Hne. rewrite Em. reflexivity.
  - intros f w'. unfold fnCreate_pseudo_prime, bind.
    destruct (fnCreate_pseudo_prime_loop mpzE mpzCompare b nNumTests flTestDiff
                fuel 0 w) as [n w1 | f1 w1 |] eqn:L; try discriminate.
    intros H. injection H as _ <-.
    apply fnCreate_pseudo_prime_loop_exit in L. rewrite L. reflexivity.
  - intros r w'. unfold fnCompute_exponent_d.
    destruct (mpz_invert _ _) as [d |]; [| discriminate].
    intros H. injection H as _ <-.
    match goal with
    | |- context [if ?c then _ else _] => destruct c
    end; (split; [reflexivity |]); intros Hne; cbn [set_mem emit mem];
      apply upd_other; exact Hne.
  - intros f w'. unfold fnCompute_exponent_d.
    destruct (mpz_invert _ _) as [d |]; [discriminate |].
    intros H. injection H as _ <-. split; reflexivity.
Qed.

End Properties.

(** ** A run of [main] that returns

    The properties of the parts, put together along the calls of [main]. *)

Section WholeRun.

Context {G : GmpOracle}.

Lemma bind_done {A B : Type} (m : M A) (k : A -> M B) (w : world)
    (b : B) (w' : world) :
  bind m k w = Done b w' ->
  exists (a : A) (w1 : world), m w = Done a w1 /\ k a w1 = Done b w'.
Proof.
  unfold bind. destruct (m w) as [a w1 | f w1 |]; try discriminate.
  intros H. exists a, w1. split; [reflexivity | exact H].
Qed.

Lemma fnCreate_pseudo_prime_post
    (mpzPrime mpzE mpzCompare : handle) (b t fl : Z) (fuel : nat)
    (w : world) (r : Z) (w' : world) :
  1 <= b ->
  fnCreate_pseudo_prime mpzPrime mpzE mpzCompare b t fl fuel w = Done r w' ->
  exists n : Z,
    mem w' = upd (mem w) mpzPrime n
    /\ out w' = out w
    /\ judge (mem w mpzE) (mem w mpzCompare) b t fl n = Accept
    /\ 2 ^ (b - 1) <= n < 2 ^ b
    /\ Z.odd n = true.
Proof.
  intros Hb H.
  apply fnCreate_pseudo_prime_done in H.
  destruct H as (n & w1 & L & _ & -> & _).
  apply fnCreate_pseudo_prime_loop_done in L.
  destruct L as ((st & En) & J & Em & Eo).
  exists n. cbn [set_mem mem out]. rewrite Em.
  repeat split; auto; rewrite En.
  - apply candidate_range; [exact Hb | apply mpz_urandomb_range; lia].
  - apply candidate_range; [exact Hb | apply mpz_urandomb_range; lia].
  - apply candidate_odd.
Qed.

Lemma fnGet_exponent_e_loop_mem (fuel : nat) :
  forall (w : world) (temp : Z) (w' : world),
    fnGet_exponent_e_loop (mpz_mul_2exp 1 256) fuel w = Done temp w' ->
    mem w' = mem w.
Proof.
  induction fuel as [| fuel IH]; intros w temp w' H; [discriminate H |].
  rewrite fnGet_exponent_e_loop_step in H. cbv zeta in H.
  destruct (good_exponent (draw_at 256 0 (rndState w))).
  - injection H as _ <-. reflexivity.
  - apply IH in H. exact H.
Qed.

Lemma fnGet_exponent_e_post (mpzE : handle) (typed : option Z) (fuel : nat)
    (w : world) (r : Z) (w' : world) :
  fnGet_exponent_e mpzE typed fuel w = Done r w' ->
  exists e : Z, mem w' = upd (mem w) mpzE e.
Proof.
  unfold fnGet_exponent_e. destruct typed as [nValE |].
  - intros H. injection H as _ <-. exists nValE. reflexivity.
  - intros H. apply bind_done in H. destruct H as (temp & w1 & L & H).
    injection H as _ <-. apply fnGet_exponent_e_loop_mem in L.
    exists temp. cbn [set_mem mem]. rewrite L. reflexivity.
Qed.

Lemma fnCompute_exponent_d_post
    (mpzP1 mpzE mpzP2 mpzD : handle) (nNumBits : Z) (w : world)
    (r : Z) (w' : world) :
  fnCompute_exponent_d mpzP1 mpzE mpzP2 mpzD nNumBits w = Done r w' ->
  exists d : Z,
    mpz_invert (mem w mpzE) ((mem w mpzP1 - 1) * (mem w mpzP2 - 1)) = Some d
    /\ mem w' = upd (mem w) mpzD d.
Proof.
  unfold fnCompute_exponent_d. rewrite phi_expanded.
  destruct (mpz_invert _ _) as [d |]; [| discriminate].
  intros H. injection H as _ <-. exists d. split; [reflexivity |].
  match goal with
  | |- context [if ?c then _ else _] => destruct c
  end; reflexivity.
Qed.

(** When [main] returns for a key length whose half [b] is at least 2, the
    values it leaves in its variables form a key: [p] and [q] have exactly
    [b] bits, are odd, passed the primality test, are coprime to [e] after
    subtracting one, lie more than [2^max(0, b-100)] apart, have a product
    of at least [2^(2b-1)], and [d] inverts [e] modulo [(p-1)(q-1)]. *)
Theorem main_returns_a_key (fuel : nat) (inp : stdin) (r : Z) (w' : world) :
  2 <= Z.quot (key_length inp) 2 ->
  main fuel inp = Done r w' ->
  (2 ^ (Z.quot (key_length inp) 2 - 1) <= mem w' main_mpzP1
     < 2 ^ Z.quot (key_length inp) 2
   /\ Z.odd (mem w' main_mpzP1) = true)
  /\ (2 ^ (Z.quot (key_length inp) 2 - 1) <= mem w' main_mpzP2
        < 2 ^ Z.quot (key_length inp) 2
      /\ Z.odd (mem w' main_mpzP2) = true)
  /\ Z.gcd (mem w' main_mpzP1 - 1) (mem w' main_mpzE) = 1
  /\ Z.gcd (mem w' main_mpzP2 - 1) (mem w' main_mpzE) = 1
  /\ 1 <= mpz_probab_prime_p (mem w' main_mpzP1) NUMTESTS
  /\ 1 <= mpz_probab_prime_p (mem w' main_mpzP2) NUMTESTS
  /\ 2 ^ Z.max 0 (Z.quot (key_length inp) 2 - 100)
     < Z.abs (mem w' main_mpzP1 - mem w' main_mpzP2)
  /\ 2 ^ (2 * Z.quot (key_length inp) 2 - 1)
     <= mem w' main_mpzP1 * mem w' main_mpzP2
  /\ (mem w' main_mpzD * mem w' main_mpzE)
       mod ((mem w' main_mpzP1 - 1) * (mem w' main_mpzP2 - 1)) = 1.
Proof.
  intros Hb H. unfold main, fnGet_key_length in H.
  set (b := Z.quot (key_length inp) 2) in *.
  apply bind_done in H. destruct H as (r1 & w1 & He & H).
  apply bind_done in H. destruct H as (r2 & w2 & Hp1 & H).
  injection Hp1 as _ <-.
  apply bind_done in H. destruct H as (r3 & w3 & HP & H).
  apply bind_done in H. destruct H as (r4 & w4 & Hp2 & H).
  injection Hp2 as _ <-.
  apply bind_done in H. destruct H as (r5 & w5 & HQ & H).
  apply bind_done in H. destruct H as (r6 & w6 & Hp3 & H).
  injection Hp3 as _ <-.
  apply bind_done in H. destruct H as (r7 & w7 & HD & H).
  apply bind_done in H. destruct H as (r8 & w8 & Hp4 & H).
  injection Hp4 as _ <-. injection H as _ <-.
  apply fnGet_exponent_e_post in He. destruct He as (e & M1).
  apply fnCreate_pseudo_prime_post in HP; [| lia].
  destruct HP as (p & M3 & _ & JP & RP & OP).
  apply fnCreate_pseudo_prime_post in HQ; [| lia].
  destruct HQ as (q & M5 & _ & JQ & RQ & OQ).
  apply fnCompute_exponent_d_post in HD. destruct HD as (d & ID & M7).
  cbn [emit mem] in *.
  assert (E1 : mem w1 main_mpzE = e) by (rewrite M1; reflexivity).
  assert (E3 : mem w3 main_mpzE = e /\ mem w3 main_mpzP1 = p).
  { rewrite M3. split; [exact E1 | reflexivity]. }
  destruct E3 as (E3 & P3).
  assert (E5 : mem w5 main_mpzE = e /\ mem w5 main_mpzP1 = p
               /\ mem w5 main_mpzP2 = q).
  { rewrite M5. repeat split; [exact E3 | exact P3]. }
  destruct E5 as (E5 & P5 & Q5).
  assert (E7 : mem w7 main_mpzE = e /\ mem w7 main_mpzP1 = p
               /\ mem w7 main_mpzP2 = q /\ mem w7 main_mpzD = d).
  { rewrite M7. repeat split; [exact E5 | exact P5 | exact Q5]. }
  destruct E7 as (-> & -> & -> & ->).
  rewrite E1 in JP. rewrite E3, P3 in JQ. rewrite E5, P5, Q5 in ID.
  apply judge_accept in JP. destruct JP as (_ & SP & GP & TP).
  apply judge_accept in JQ. destruct JQ as (DQ & SQ & GQ & TQ).
  specialize (DQ eq_refl).
  assert (Pos : 2 <= 2 ^ (b - 1)).
  { change 2 with (2 ^ 1) at 1. apply Z.pow_le_mono_r; lia. }
  assert (Pj : 0 < 2 ^ Z.max 0 (b - 100)) by (apply Z.pow_pos_nonneg; lia).
  assert (Phi : 2 <= (p - 1) * (q - 1)) by nia.
  apply mpz_invert_inverse in ID; [| lia].
  destruct ID as (_ & ID). rewrite Z.mod_1_l in ID by lia.
  repeat split; auto; try lia.
  apply product_of_large_squares; lia.
Qed.

End WholeRun.

(** ** Concrete runs on the scripted oracle *)

(** Witness for C1: the draw 7 at 5 bits gives 23. *)
Lemma fnCreate_pseudo_prime_bit_length_witness :
  2 <= 5
  /\ fnCreate_pseudo_prime (G := Scripted) main_mpzP1 main_mpzE main_mpzP2
       5 NUMTESTS 0 4 (scripted_world 0 0 3 [7])
     = Done 0 (returned (scripted_world 0 0 3 [7]) [] main_mpzP1 23)
  /\ (2 ^ (5 - 1) <= 23 < 2 ^ 5 /\ Z.odd 23 = true).
Proof.
  split; [lia |]. split; [reflexivity |].
  exact (fnCreate_pseudo_prime_bit_length (G := Scripted)
           main_mpzP1 main_mpzE main_mpzP2 5 NUMTESTS 0 4
           (scripted_world 0 0 3 [7]) 0
           (returned (scripted_world 0 0 3 [7]) [] main_mpzP1 23)
           ltac:(lia) eq_refl).
Defined.



(** Witness for C3: the draws 7 and 12 at 5 bits give 23 and 29. *)
Lemma prime_pair_separated_and_large_witness :
  1 <= 5
  /\ main_mpzP1 <> main_mpzP2
  /\ fnCreate_pseudo_prime (G := Scripted) main_mpzP1 main_mpzE main_mpzP2
       5 NUMTESTS 0 4 (scripted_world 0 0 3 [7; 12])
     = Done 0 (returned (scripted_world 0 0 3 [7; 12]) [12] main_mpzP1 23)
  /\ fnCreate_pseudo_prime (G := Scripted) main_mpzP2 main_mpzE main_mpzP1
       5 NUMTESTS 1 4
       (returned (scripted_world 0 0 3 [7; 12]) [12] main_mpzP1 23)
     = Done 0 (returned
                 (returned (scripted_world 0 0 3 [7; 12]) [12] main_mpzP1 23)
                 [] main_mpzP2 29)
  /\ (23 <> 29
      /\ Z.abs (23 - 29) > 2 ^ Z.max 0 (5 - 100)
      /\ 23 * 29 >= 2 ^ (2 * 5 - 1)).
Proof.
  assert (Hne : main_mpzP1 <> main_mpzP2) by (intros E; discriminate E).
  split; [lia |]. split; [exact Hne |].
  split; [reflexivity |]. split; [reflexivity |].
  exact (prime_pair_separated_and_large (G := Scripted)
           main_mpzP1 main_mpzP2 main_mpzE 5 NUMTESTS 4 4
           (scripted_world 0 0 3 [7; 12])
           (returned (scripted_world 0 0 3 [7; 12]) [12] main_mpzP1 23)
           (returned (scripted_world 0 0 3 [7; 12]) [12] main_mpzP1 23)
           (returned
              (returned (scripted_world 0 0 3 [7; 12]) [12] main_mpzP1 23)
              [] main_mpzP2 29)
           0 0 ltac:(lia) Hne eq_refl eq_refl eq_refl).
Defined.

(** Witness for C4: 23 is returned for [e = 3]; [gcd (22, 3) = 1] and trial
    division answers 2. *)
Lemma fnCreate_pseudo_prime_coprime_and_tested_witness :
  fnCreate_pseudo_prime (G := Scripted) main_mpzP1 main_mpzE main_mpzP2
    5 NUMTESTS 0 4 (scripted_world 0 0 3 [7])
  = Done 0 (returned (scripted_world 0 0 3 [7]) [] main_mpzP1 23)
  /\ Z.gcd (23 - 1) 3 = 1
  /\ mpz_probab_prime_p (GmpOracle := Scripted) 23 NUMTESTS >= 1.
Proof.
  split; [reflexivity |].
  exact (fnCreate_pseudo_prime_coprime_and_tested (G := Scripted)
           main_mpzP1 main_mpzE main_mpzP2 5 NUMTESTS 0 4
           (scripted_world 0 0 3 [7]) 0
           (returned (scripted_world 0 0 3 [7]) [] main_mpzP1 23) eq_refl).
Defined.

(** Counterexample to C5 as stated: [p = q = 2] and [e = 3] satisfy
    [p, q >= 1] and [gcd (e, (p-1)(q-1)) = gcd (3, 1) = 1]; the function
    returns [d = 0], and [(0 * 3) mod 1 = 0], not 1. *)
Lemma fnCompute_exponent_d_inverse_counterexample :
  1 <= 2
  /\ Z.gcd 3 ((2 - 1) * (2 - 1)) = 1
  /\ fnCompute_exponent_d (G := Scripted) main_mpzP1 main_mpzE main_mpzP2
       main_mpzD 1 (scripted_world 2 2 3 [])
     = Done 0 (set_mem (emit (scripted_world 2 2 3 [])
                          Warning_exponent_too_small) main_mpzD 0)
  /\ (0 * 3) mod ((2 - 1) * (2 - 1)) <> 1.
Proof.
  split; [lia |]. split; [reflexivity |]. split; [reflexivity |].
  intros E. discriminate E.
Qed.

(** Witness for the amended C5: [p = 23], [q = 29], [e = 3] give
    [d = 411], and [411 * 3 = 2 * 616 + 1]. *)
Lemma fnCompute_exponent_d_inverse_witness :
  1 <= 23 /\ 1 <= 29 /\ 2 <= (23 - 1) * (29 - 1)
  /\ Z.gcd 3 ((23 - 1) * (29 - 1)) = 1
  /\ 0 <= 5
  /\ exists w' : world,
      fnCompute_exponent_d (G := Scripted) main_mpzP1 main_mpzE main_mpzP2
        main_mpzD 5 (scripted_world 23 29 3 []) = Done 0 w'
      /\ (mem w' main_mpzD * 3) mod ((23 - 1) * (29 - 1)) = 1
      /\ 0 <= mem w' main_mpzD < (23 - 1) * (29 - 1)
      /\ 23 * 29 - 23 - 29 + 1 = (23 - 1) * (29 - 1).
Proof.
  split; [lia |]. split; [lia |]. split; [lia |]. split; [reflexivity |].
  split; [lia |].
  exact (fnCompute_exponent_d_inverse (G := Scripted)
           main_mpzP1 main_mpzE main_mpzP2 main_mpzD 5
           (scripted_world 23 29 3 []) 23 29 3
           eq_refl eq_refl eq_refl ltac:(lia) ltac:(lia) ltac:(lia) eq_refl
           ltac:(lia)).
Defined.

(** Witness for C7: of the draws 4 and 70001 the second is the first that
    is odd and in range. *)
Lemma fnGet_exponent_e_random_witness :
  good_exponent 4 = false
  /\ good_exponent 70001 = true
  /\ exists w' : world,
      fnGet_exponent_e (G := Scripted) main_mpzE None 5
        (scripted_world 0 0 1 [4; 70001]) = Done 0 w'
      /\ mem w' main_mpzE = 70001
      /\ rndState w' = ([], 0)
      /\ 65536 <= mem w' main_mpzE <= 2 ^ 256
      /\ Z.odd (mem w' main_mpzE) = true.
Proof.
  split; [reflexivity |]. split; [reflexivity |].
  refine (fnGet_exponent_e_random (G := Scripted) main_mpzE 5 1
            (scripted_world 0 0 1 [4; 70001]) _ eq_refl ltac:(lia)).
  intros [| j] Hj; [reflexivity | lia].
Defined.

(** Witness for C9: [d = 411] is below [2^10]; the warning is written and
    411 is stored. *)
Lemma fnCompute_exponent_d_warning_only_witness :
  mpz_invert 3 (23 * 29 - 23 - 29 + 1) = Some 411
  /\ 411 < 2 ^ 10
  /\ fnCompute_exponent_d (G := Scripted) main_mpzP1 main_mpzE main_mpzP2
       main_mpzD 10 (scripted_world 23 29 3 [])
     = Done 0 (@Build_world Scripted
                 (upd (mem (scripted_world 23 29 3 [])) main_mpzD 411)
                 ([], 0) [Warning_exponent_too_small]).
Proof.
  split; [reflexivity |]. split; [lia |].
  exact (fnCompute_exponent_d_warning_only (G := Scripted)
           main_mpzP1 main_mpzE main_mpzP2 main_mpzD 10
           (scripted_world 23 29 3 []) 411 eq_refl ltac:(lia)).
Defined.

(** Witness for C10: the call that returns 23 into [mpzP1] leaves the
    exponent as it was. *)
Lemma calls_write_only_their_output_witness :
  main_mpzE <> main_mpzP1
  /\ mem (returned (scripted_world 0 0 3 [7]) [] main_mpzP1 23) main_mpzE
     = mem (scripted_world 0 0 3 [7]) main_mpzE.
Proof.
  assert (Hne : main_mpzE <> main_mpzP1) by (intros E; discriminate E).
  split; [exact Hne |].
  exact (proj1 (calls_write_only_their_output (G := Scripted)
                  main_mpzP1 main_mpzE main_mpzP2 5 NUMTESTS 0 4
                  main_mpzP1 main_mpzE main_mpzP2 main_mpzD 5
                  (scripted_world 0 0 3 [7]) main_mpzE)
               0 (returned (scripted_world 0 0 3 [7]) [] main_mpzP1 23)
               eq_refl Hne).
Defined.

(** Witness for [main_returns_a_key]: the typed session yields [e = 3],
    [p = 23], [q = 29] and [d = 411]. *)
Lemma main_returns_a_key_witness :
  2 <= Z.quot (key_length typed_session) 2
  /\ key_of (main (G := Scripted) 64 typed_session) = Some (3, 23, 29, 411)
  /\ (411 * 3) mod ((23 - 1) * (29 - 1)) = 1.
Proof.
  assert (Hb : 2 <= Z.quot (key_length typed_session) 2)
    by (intros E; discriminate E).
  assert (K : key_of (main (G := Scripted) 64 typed_session)
              = Some (3, 23, 29, 411)) by reflexivity.
  split; [exact Hb |]. split; [exact K |].
  pose proof (main_returns_a_key (G := Scripted) 64 typed_session) as T.
  destruct (main (G := Scripted) 64 typed_session) as [r w' | f w' |];
    [| discriminate K | discriminate K].
  cbn [key_of] in K. injection K as K1 K2 K3 K4.
  specialize (T r w' Hb eq_refl).
  rewrite K1, K2, K3, K4 in T. apply T.
Defined.

(** ** Further properties of the three functions and of [main] *)

Section Inversions.

Context {G : GmpOracle}.

Lemma bind_exit {A B : Type} (m : M A) (k : A -> M B) (w : world)
    (f : fatal) (w' : world) :
  bind m k w = Exit1 f w' ->
  m w = Exit1 f w'
  \/ exists (a : A) (w1 : world), m w = Done a w1 /\ k a w1 = Exit1 f w'.
Proof.
  unfold bind. destruct (m w) as [a w1 | f1 w1 |]; try discriminate.
  - intros H. right. exists a, w1. split; [reflexivity | exact H].
  - intros H. injection H as <- <-. left. reflexivity.
Qed.

(** An attempt is accepted, restarted or counted by the same tests
    whatever the companion, unless the difference test is enabled. *)
Lemma judge_without_difference_test (e c c' b t fl n : Z) :
  fl <> 1 -> judge e c b t fl n = judge e c' b t fl n.
Proof.
  intros Hfl. unfold judge.
  destruct (Z.eqb_spec fl 1) as [E | E]; [contradiction | reflexivity].
Qed.

Lemma fnCreate_pseudo_prime_loop_exit_inv
    (mpzE mpzCompare : handle) (b t fl : Z) (fuel : nat) :
  forall (i : Z) (w : world) (f : fatal) (w' : world),
    fnCreate_pseudo_prime_loop mpzE mpzCompare b t fl fuel i w = Exit1 f w' ->
    f = RetryExhausted
    /\ mem w' = mem w
    /\ out w' = out w ++ [Failure_creating_prime].
Proof.
  induction fuel as [| fuel IH]; intros i w f w' H.
  - discriminate H.
  - rewrite fnCreate_pseudo_prime_loop_step in H. cbv zeta in H.
    destruct (judge (mem w mpzE) (mem w mpzCompare) b t fl
                (candidate b (draw_at (b - 1) 0 (rndState w)))).
    + apply IH in H. exact H.
    + destruct (i + 1 >=? 5 * b).
      * injection H as <- <-. repeat split.
      * apply IH in H. exact H.
    + discriminate H.
Qed.

Lemma fnCreate_pseudo_prime_exit_inv
    (mpzPrime mpzE mpzCompare : handle) (b t fl : Z) (fuel : nat)
    (w : world) (f : fatal) (w' : world) :
  fnCreate_pseudo_prime mpzPrime mpzE mpzCompare b t fl fuel w = Exit1 f w' ->
  f = RetryExhausted
  /\ mem w' = mem w
  /\ out w' = out w ++ [Failure_creating_prime].
Proof.
  unfold fnCreate_pseudo_prime. intros H.
  apply bind_exit in H. destruct H as [H | (n & w1 & _ & H)].
  - apply fnCreate_pseudo_prime_loop_exit_inv in H. exact H.
  - discriminate H.
Qed.

(** A returned candidate, without any assumption on the bit length. *)
Lemma fnCreate_pseudo_prime_accept
    (mpzPrime mpzE mpzCompare : handle) (b t fl : Z) (fuel : nat)
    (w : world) (r : Z) (w' : world) :
  fnCreate_pseudo_prime mpzPrime mpzE mpzCompare b t fl fuel w = Done r w' ->
  exists n : Z,
    mem w' = upd (mem w) mpzPrime n
    /\ out w' = out w
    /\ judge (mem w mpzE) (mem w mpzCompare) b t fl n = Accept
    /\ (exists st : randstate, n = candidate b (fst (mpz_urandomb st (b - 1)))).
Proof.
  intros H.
  apply fnCreate_pseudo_prime_done in H.
  destruct H as (n & w1 & L & _ & -> & _).
  apply fnCreate_pseudo_prime_loop_done in L.
  destruct L as (Hst & J & Em & Eo).
  exists n. cbn [set_mem mem out]. rewrite Em. repeat split; auto.
Qed.

Lemma fnGet_exponent_e_loop_inv (fuel : nat) :
  forall (w : world) (temp : Z) (w' : world),
    fnGet_exponent_e_loop (mpz_mul_2exp 1 256) fuel w = Done temp w' ->
    mem w' = mem w
    /\ out w' = out w
    /\ good_exponent temp = true
    /\ (exists st : randstate, temp = fst (mpz_urandomb st 256)).
Proof.
  induction fuel as [| fuel IH]; intros w temp w' H; [discriminate H |].
  rewrite fnGet_exponent_e_loop_step in H. cbv zeta in H.
  destruct (good_exponent (draw_at 256 0 (rndState w))) eqn:E.
  - injection H as <- <-. repeat split; auto.
    exists (rndState w). reflexivity.
  - apply IH in H. exact H.
Qed.

Lemma fnGet_exponent_e_loop_no_exit (fuel : nat) :
  forall (w : world) (f : fatal) (w' : world),
    fnGet_exponent_e_loop (mpz_mul_2exp 1 256) fuel w <> Exit1 f w'.
Proof.
  induction fuel as [| fuel IH]; intros w f w' H; [discriminate H |].
  rewrite fnGet_exponent_e_loop_step in H. cbv zeta in H.
  destruct (good_exponent (draw_at 256 0 (rndState w))).
  - discriminate H.
  - apply IH in H. exact H.
Qed.

Lemma fnGet_exponent_e_no_exit (mpzE : handle) (typed : option Z)
    (fuel : nat) (w : world) (f : fatal) (w' : world) :
  fnGet_exponent_e mpzE typed fuel w <> Exit1 f w'.
Proof.
  unfold fnGet_exponent_e. destruct typed as [nValE |].
  - discriminate.
  - intros H. apply bind_exit in H. destruct H as [H | (t & w1 & _ & H)].
    + apply fnGet_exponent_e_loop_no_exit in H. exact H.
    + discriminate H.
Qed.

Lemma fnGet_exponent_e_done_inv (mpzE : handle) (typed : option Z)
    (fuel : nat) (w : world) (r : Z) (w' : world) :
  fnGet_exponent_e mpzE typed fuel w = Done r w' ->
  exists e : Z, mem w' = upd (mem w) mpzE e /\ out w' = out w.
Proof.
  unfold fnGet_exponent_e. destruct typed as [nValE |].
  - intros H. injection H as _ <-. exists nValE. split; reflexivity.
  - intros H. apply bind_done in H. destruct H as (temp & w1 & L & H).
    injection H as _ <-. apply fnGet_exponent_e_loop_inv in L.
    destruct L as (Em & Eo & _).
    exists temp. cbn [set_mem mem out]. rewrite Em, Eo. split; reflexivity.
Qed.

(** The whole effect of [fnCompute_exponent_d] when the inverse exists. *)
Lemma fnCompute_exponent_d_some
    (mpzP1 mpzE mpzP2 mpzD : handle) (nNumBits : Z) (w : world) (d : Z) :
  mpz_invert (mem w mpzE) ((mem w mpzP1 - 1) * (mem w mpzP2 - 1)) = Some d ->
  fnCompute_exponent_d mpzP1 mpzE mpzP2 mpzD nNumBits w
  = Done 0 {| mem := upd (mem w) mpzD d;
              rndState := rndState w;
              out := out w ++ (if d <? 2 ^ nNumBits
                               then [Warning_exponent_too_small]
                               else []) |}.
Proof.
  intros Hi. unfold fnCompute_exponent_d. rewrite phi_expanded, Hi.
  rewrite mpz_cmp_lt, mpz_mul_2exp_one.
  destruct (d <? 2 ^ nNumBits).
  - reflexivity.
  - rewrite app_nil_r. reflexivity.
Qed.

Lemma coprime_to_phi (p q e : Z) :
  Z.gcd (p - 1) e = 1 -> Z.gcd (q - 1) e = 1 ->
  Z.gcd e ((p - 1) * (q - 1)) = 1.
Proof.
  intros Hp Hq. apply Z.coprime_mul_r; unfold Z.coprime;
    rewrite Z.gcd_comm; assumption.
Qed.

End Inversions.

Section MainProperties.

Context {G : GmpOracle}.

Lemma key_of_some {A : Type} (res : result A) (e p q d : Z) :
  key_of res = Some (e, p, q, d) ->
  exists (a : A) (w : world),
    res = Done a w
    /\ mem w main_mpzE = e /\ mem w main_mpzP1 = p
    /\ mem w main_mpzP2 = q /\ mem w main_mpzD = d.
Proof.
  destruct res as [a w | f w |]; cbn [key_of]; try discriminate.
  intros H. injection H as <- <- <- <-. exists a, w. repeat split.
Qed.

(** A run of [main] that returns, stage by stage: the values left in the
    variables, the verdicts that accepted the two primes, the inverse that
    [mpz_invert] found, and everything that was printed. *)
Lemma main_done_inv (fuel : nat) (inp : stdin) (r : Z) (w' : world) :
  main fuel inp = Done r w' ->
  exists e p q d : Z,
    (mem w' main_mpzE = e /\ mem w' main_mpzP1 = p
     /\ mem w' main_mpzP2 = q /\ mem w' main_mpzD = d)
    /\ judge e 0 (Z.quot (key_length inp) 2) NUMTESTS 0 p = Accept
    /\ judge e p (Z.quot (key_length inp) 2) NUMTESTS 1 q = Accept
    /\ (exists st : randstate,
          p = candidate (Z.quot (key_length inp) 2)
                (fst (mpz_urandomb st (Z.quot (key_length inp) 2 - 1))))
    /\ (exists st : randstate,
          q = candidate (Z.quot (key_length inp) 2)
                (fst (mpz_urandomb st (Z.quot (key_length inp) 2 - 1))))
    /\ mpz_invert e ((p - 1) * (q - 1)) = Some d
    /\ out w'
       = [Printed Exponent_e e; Printed First_pseudo_prime p;
          Printed Second_pseudo_prime q]
         ++ (if d <? 2 ^ Z.quot (key_length inp) 2
             then [Warning_exponent_too_small]
             else [])
         ++ [Printed Exponent_d d].
Proof.
  intros H. unfold main, fnGet_key_length in H.
  set (b := Z.quot (key_length inp) 2) in *.
  apply bind_done in H. destruct H as (r1 & w1 & He & H).
  apply bind_done in H. destruct H as (r2 & w2 & Hp1 & H).
  injection Hp1 as _ <-.
  apply bind_done in H. destruct H as (r3 & w3 & HP & H).
  apply bind_done in H. destruct H as (r4 & w4 & Hp2 & H).
  injection Hp2 as _ <-.
  apply bind_done in H. destruct H as (r5 & w5 & HQ & H).
  apply bind_done in H. destruct H as (r6 & w6 & Hp3 & H).
  injection Hp3 as _ <-.
  apply bind_done in H. destruct H as (r7 & w7 & HD & H).
  apply bind_done in H. destruct H as (r8 & w8 & Hp4 & H).
  injection Hp4 as _ <-. injection H as _ <-.
  apply fnGet_exponent_e_done_inv in He. destruct He as (e & M1 & O1).
  apply fnCreate_pseudo_prime_accept in HP.
  destruct HP as (p & M3 & O3 & JP & SP).
  apply fnCreate_pseudo_prime_accept in HQ.
  destruct HQ as (q & M5 & O5 & JQ & SQ).
  cbn [emit mem out] in *.
  assert (E1 : mem w1 main_mpzE = e /\ mem w1 main_mpzP2 = 0).
  { rewrite M1. split; reflexivity. }
  destruct E1 as (E1 & Z1).
  assert (E3 : mem w3 main_mpzE = e /\ mem w3 main_mpzP1 = p).
  { rewrite M3. split; [exact E1 | reflexivity]. }
  destruct E3 as (E3 & P3).
  assert (E5 : mem w5 main_mpzE = e /\ mem w5 main_mpzP1 = p
               /\ mem w5 main_mpzP2 = q).
  { rewrite M5. repeat split; [exact E3 | exact P3]. }
  destruct E5 as (E5 & P5 & Q5).
  rewrite E1, Z1 in JP. rewrite E3, P3 in JQ.
  apply fnCompute_exponent_d_post in HD as HD'.
  destruct HD' as (d & ID & _).
  rewrite (fnCompute_exponent_d_some _ _ _ _ _ _ d ID) in HD.
  injection HD as _ <-. cbn [emit mem out] in *.
  rewrite E5, P5, Q5 in ID.
  exists e, p, q, d.
  split; [| split; [exact JP | split; [exact JQ | split; [exact SP |
    split; [exact SQ | split; [exact ID |]]]]]].
  - repeat split; [exact E5 | exact P5 | exact Q5].
  - rewrite O5, O3, O1, E1, P3, Q5.
    change (upd (mem w5) main_mpzD d main_mpzD) with d.
    cbn [main_init out app]. reflexivity.
Qed.

(** The same, read off the key that the run leaves behind. *)
Lemma main_key_inv (fuel : nat) (inp : stdin) (e p q d : Z) :
  key_of (main fuel inp) = Some (e, p, q, d) ->
  judge e 0 (Z.quot (key_length inp) 2) NUMTESTS 0 p = Accept
  /\ judge e p (Z.quot (key_length inp) 2) NUMTESTS 1 q = Accept
  /\ (exists st : randstate,
        p = candidate (Z.quot (key_length inp) 2)
              (fst (mpz_urandomb st (Z.quot (key_length inp) 2 - 1))))
  /\ (exists st : randstate,
        q = candidate (Z.quot (key_length inp) 2)
              (fst (mpz_urandomb st (Z.quot (key_length inp) 2 - 1))))
  /\ mpz_invert e ((p - 1) * (q - 1)) = Some d
  /\ output_of (main fuel inp)
     = [Printed Exponent_e e; Printed First_pseudo_prime p;
        Printed Second_pseudo_prime q]
       ++ (if d <? 2 ^ Z.quot (key_length inp) 2
           then [Warning_exponent_too_small]
           else [])
       ++ [Printed Exponent_d d].
Proof.
  intros K. apply key_of_some in K.
  destruct K as (r & w' & E & Ee & Ep & Eq & Ed).
  rewrite E. cbn [output_of].
  apply main_done_inv in E.
  destruct E as (e' & p' & q' & d' & (Ee' & Ep' & Eq' & Ed') & R).
  assert (He : e' = e) by (rewrite <- Ee, <- Ee'; reflexivity).
  assert (Hp : p' = p) by (rewrite <- Ep, <- Ep'; reflexivity).
  assert (Hq : q' = q) by (rewrite <- Eq, <- Eq'; reflexivity).
  assert (Hd : d' = d) by (rewrite <- Ed, <- Ed'; reflexivity).
  rewrite He, Hp, Hq, Hd in R. exact R.
Qed.

(** A run of [main] that exits: it is the failure of one of the two
    searches, and the failure message is the last thing written. *)
Lemma main_exit_inv (fuel : nat) (inp : stdin) (f : fatal) (w' : world) :
  main fuel inp = Exit1 f w' ->
  f = RetryExhausted
  /\ exists l : list event, out w' = l ++ [Failure_creating_prime].
Proof.
  intros H. unfold main, fnGet_key_length in H.
  set (b := Z.quot (key_length inp) 2) in *.
  apply bind_exit in H. destruct H as [H | (r1 & w1 & He & H)].
  { apply fnGet_exponent_e_no_exit in H. contradiction. }
  apply bind_exit in H. destruct H as [H | (r2 & w2 & Hp1 & H)].
  { discriminate H. }
  injection Hp1 as _ <-.
  apply bind_exit in H. destruct H as [H | (r3 & w3 & HP & H)].
  { apply fnCreate_pseudo_prime_exit_inv in H. destruct H as (-> & _ & O).
    split; [reflexivity |]. eexists. exact O. }
  apply bind_exit in H. destruct H as [H | (r4 & w4 & Hp2 & H)].
  { discriminate H. }
  injection Hp2 as _ <-.
  apply bind_exit in H. destruct H as [H | (r5 & w5 & HQ & H)].
  { apply fnCreate_pseudo_prime_exit_inv in H. destruct H as (-> & _ & O).
    split; [reflexivity |]. eexists. exact O. }
  apply bind_exit in H. destruct H as [H | (r6 & w6 & Hp3 & H)].
  { discriminate H. }
  injection Hp3 as _ <-.
  exfalso.
  apply fnGet_exponent_e_done_inv in He. destruct He as (e & M1 & _).
  apply fnCreate_pseudo_prime_accept in HP.
  destruct HP as (p & M3 & _ & JP & _).
  apply fnCreate_pseudo_prime_accept in HQ.
  destruct HQ as (q & M5 & _ & JQ & _).
  cbn [emit mem out] in *.
  assert (E1 : mem w1 main_mpzE = e) by (rewrite M1; reflexivity).
  assert (E3 : mem w3 main_mpzE = e /\ mem w3 main_mpzP1 = p).
  { rewrite M3. split; [exact E1 | reflexivity]. }
  destruct E3 as (E3 & P3).
  assert (E5 : mem w5 main_mpzE = e /\ mem w5 main_mpzP1 = p
               /\ mem w5 main_mpzP2 = q).
  { rewrite M5. repeat split; [exact E3 | exact P3]. }
  destruct E5 as (E5 & P5 & Q5).
  rewrite E1 in JP. rewrite E3 in JQ.
  apply judge_accept in JP. destruct JP as (_ & _ & GP & _).
  apply judge_accept in JQ. destruct JQ as (_ & _ & GQ & _).
  pose proof (coprime_to_phi p q e GP GQ) as Hg.
  apply mpz_invert_some in Hg.
  apply bind_exit in H. destruct H as [H | (r7 & w7 & HD & H)].
  - rewrite (fnCompute_exponent_d_some main_mpzP1 main_mpzE main_mpzP2
               main_mpzD b _ (Z.invmod e (Z.abs ((p - 1) * (q - 1)))))
      in H.
    + discriminate H.
    + cbn [emit mem]. rewrite E5, P5, Q5. exact Hg.
  - apply bind_exit in H. destruct H as [H | (r8 & w8 & _ & H)];
      discriminate H.
Qed.

End MainProperties.

Section FurtherProperties.

Context {G : GmpOracle}.

Lemma no_unit_gcd_of_evens (a b : Z) :
  Z.even a = true -> Z.even b = true -> Z.gcd a b <> 1.
Proof.
  intros Ha Hb Hg.
  apply Z.even_spec in Ha. apply Z.even_spec in Hb.
  destruct Ha as (x & Hx). destruct Hb as (y & Hy).
  assert (D : (2 | Z.gcd a b)).
  { apply Z.gcd_greatest; [exists x | exists y]; lia. }
  rewrite Hg in D. destruct D as (k & Hk). lia.
Qed.

Lemma odd_pred_even (n : Z) : Z.odd n = true -> Z.even (n - 1) = true.
Proof.
  intros Hn. apply Z.odd_spec in Hn. destruct Hn as (k & ->).
  apply Z.even_spec. exists k. lia.
Qed.

(** At 1, 2 and 3 bits at most one candidate passes the size filter:
    none, 3 and 7. *)
Lemma only_one_large_candidate (b r : Z) :
  1 <= b <= 3 -> 0 <= r < 2 ^ (b - 1) ->
  2 ^ (2 * b - 1) <= candidate b r * candidate b r ->
  (b = 2 /\ candidate b r = 3) \/ (b = 3 /\ candidate b r = 7).
Proof.
  intros Hb Hr Hs.
  assert (Cb : b = 1 \/ b = 2 \/ b = 3) by lia.
  destruct Cb as [-> | [-> | ->]].
  - change (2 ^ (1 - 1)) with 1 in Hr.
    assert (r = 0) by lia. subst r. cbn in Hs. lia.
  - change (2 ^ (2 - 1)) with 2 in Hr.
    assert (Cr : r = 0 \/ r = 1) by lia.
    left. split; [reflexivity |].
    destruct Cr as [-> | ->]; reflexivity.
  - change (2 ^ (3 - 1)) with 4 in Hr.
    assert (Cr : r = 0 \/ r = 1 \/ r = 2 \/ r = 3) by lia.
    right. split; [reflexivity |].
    destruct Cr as [-> | [-> | [-> | ->]]]; cbn in Hs; try lia; reflexivity.
Qed.

(** *** [fnCreate_pseudo_prime] *)

(** With an even exponent no candidate is ever returned: a candidate [n]
    is odd, so 2 divides both [n - 1] and [e].  The search can only fail
    or go on. *)
Theorem fnCreate_pseudo_prime_even_exponent
    (mpzPrime mpzE mpzCompare : handle) (b nNumTests flTestDiff : Z)
    (fuel : nat) (w : world) :
  Z.even (mem w mpzE) = true ->
  is_done (fnCreate_pseudo_prime mpzPrime mpzE mpzCompare b nNumTests
             flTestDiff fuel w) = false.
Proof.
  intros He.
  destruct (fnCreate_pseudo_prime mpzPrime mpzE mpzCompare b nNumTests
              flTestDiff fuel w) as [r w' | f w' |] eqn:E;
    [| reflexivity | reflexivity].
  exfalso.
  apply fnCreate_pseudo_prime_accept in E.
  destruct E as (n & _ & _ & J & (st & En)).
  apply judge_accept in J. destruct J as (_ & _ & Hg & _).
  apply (no_unit_gcd_of_evens (n - 1) (mem w mpzE)); [| exact He | exact Hg].
  apply odd_pred_even. rewrite En. apply candidate_odd.
Qed.

Lemma fnCreate_pseudo_prime_loop_one_bit
    (mpzE mpzCompare : handle) (t fl : Z) (fuel : nat) :
  forall (i : Z) (w : world),
    fnCreate_pseudo_prime_loop mpzE mpzCompare 1 t fl fuel i w = OutOfFuel.
Proof.
  induction fuel as [| fuel IH]; intros i w; [reflexivity |].
  rewrite fnCreate_pseudo_prime_loop_step. cbv zeta.
  assert (D : draw_at (1 - 1) 0 (rndState w) = 0).
  { unfold draw_at. cbn [rnd_after].
    pose proof (mpz_urandomb_range (rndState w) (1 - 1)) as R.
    change (2 ^ (1 - 1)) with 1 in R. lia. }
  rewrite D.
  replace (judge (mem w mpzE) (mem w mpzCompare) 1 t fl (candidate 1 0))
    with Restart.
  - apply IH.
  - unfold judge.
    destruct ((fl =? 1) && too_close (mem w mpzCompare) 1 (candidate 1 0));
      reflexivity.
Qed.

(** For the bit length 1 the search never ends: its only candidate is 1,
    and [1 * 1 < 2^1] sends every attempt back to the top of the loop
    without counting it.  Whatever the bound on the iterations, the loop
    is still running when it is reached. *)
Theorem fnCreate_pseudo_prime_one_bit_runs_forever
    (mpzPrime mpzE mpzCompare : handle) (nNumTests flTestDiff : Z)
    (fuel : nat) (w : world) :
  fnCreate_pseudo_prime mpzPrime mpzE mpzCompare 1 nNumTests flTestDiff fuel w
  = OutOfFuel.
Proof.
  unfold fnCreate_pseudo_prime, bind.
  rewrite fnCreate_pseudo_prime_loop_one_bit. reflexivity.
Qed.

Lemma fnCreate_pseudo_prime_loop_ignores_companion
    (mpzE mpzCompare mpzCompare' : handle) (b t fl : Z) (fuel : nat) :
  fl <> 1 ->
  forall (i : Z) (w : world),
    fnCreate_pseudo_prime_loop mpzE mpzCompare b t fl fuel i w
    = fnCreate_pseudo_prime_loop mpzE mpzCompare' b t fl fuel i w.
Proof.
  intros Hfl. induction fuel as [| fuel IH]; intros i w; [reflexivity |].
  rewrite !fnCreate_pseudo_prime_loop_step. cbv zeta.
  rewrite (judge_without_difference_test _ (mem w mpzCompare)
             (mem w mpzCompare')) by exact Hfl.
  destruct (judge (mem w mpzE) (mem w mpzCompare') b t fl
              (candidate b (draw_at (b - 1) 0 (rndState w)))).
  - apply IH.
  - destruct (i + 1 >=? 5 * b); [reflexivity | apply IH].
  - reflexivity.
Qed.

(** Unless [flTestDiff] is exactly 1 the companion is not looked at: the
    call does the same with any other big integer in its place, so the
    first search of [main] does not depend on the initial [mpzP2]. *)
Theorem fnCreate_pseudo_prime_ignores_companion
    (mpzPrime mpzE mpzCompare mpzCompare' : handle)
    (b nNumTests flTestDiff : Z) (fuel : nat) (w : world) :
  flTestDiff <> 1 ->
  fnCreate_pseudo_prime mpzPrime mpzE mpzCompare b nNumTests flTestDiff fuel w
  = fnCreate_pseudo_prime mpzPrime mpzE mpzCompare' b nNumTests flTestDiff
      fuel w.
Proof.
  intros Hfl. unfold fnCreate_pseudo_prime, bind.
  rewrite (fnCreate_pseudo_prime_loop_ignores_companion mpzE mpzCompare
             mpzCompare') by exact Hfl.
  reflexivity.
Qed.

(** *** [fnGet_exponent_e] *)

(** A drawn exponent is odd and satisfies [65537 <= e < 2^256]: the lower
    test and the parity test leave 65537 as the least value, and a draw of
    256 bits is below [2^256], so the comparison with the upper bound
    never rejects anything. *)
Theorem fnGet_exponent_e_random_range
    (mpzE : handle) (fuel : nat) (w : world) (r : Z) (w' : world) :
  fnGet_exponent_e mpzE None fuel w = Done r w' ->
  65537 <= mem w' mpzE < 2 ^ 256 /\ Z.odd (mem w' mpzE) = true.
Proof.
  unfold fnGet_exponent_e. intros H.
  apply bind_done in H. destruct H as (temp & w1 & L & H).
  injection H as _ <-. cbn [set_mem mem]. rewrite upd_same.
  apply fnGet_exponent_e_loop_inv in L.
  destruct L as (_ & _ & Hgood & (st & ->)).
  apply good_exponent_spec in Hgood. destruct Hgood as (Hr & Ho).
  pose proof (mpz_urandomb_range st 256 ltac:(lia)) as R.
  split; [| exact Ho].
  apply Z.odd_spec in Ho. destruct Ho as (k & Hk). lia.
Qed.

(** [fnGet_exponent_e] leaves every big integer other than [mpzE] as it
    was, whether the exponent is typed or drawn; when it is typed the
    generator is not used, so the search for the first prime starts from
    the state that the seed gave. *)
Theorem fnGet_exponent_e_writes_only_e
    (mpzE : handle) (typed : option Z) (fuel : nat) (w : world)
    (r : Z) (w' : world) :
  fnGet_exponent_e mpzE typed fuel w = Done r w' ->
  (forall h : handle, h <> mpzE -> mem w' h = mem w h)
  /\ (typed <> None -> rndState w' = rndState w).
Proof.
  intros H. split.
  - intros h Hne.
    apply fnGet_exponent_e_done_inv in H. destruct H as (e & Em & _).
    rewrite Em. apply upd_other. exact Hne.
  - intros Ht. destruct typed as [nValE |]; [| contradiction].
    unfold fnGet_exponent_e in H.
    injection H as _ <-. reflexivity.
Qed.

(** *** [fnCompute_exponent_d] *)

(** The two primes can be passed in either order: the outcome, the stored
    [d] and the output are the same. *)
Theorem fnCompute_exponent_d_symmetric
    (mpzP1 mpzE mpzP2 mpzD : handle) (nNumBits : Z) (w : world) :
  fnCompute_exponent_d mpzP1 mpzE mpzP2 mpzD nNumBits w
  = fnCompute_exponent_d mpzP2 mpzE mpzP1 mpzD nNumBits w.
Proof.
  unfold fnCompute_exponent_d.
  replace (mem w mpzP2 * mem w mpzP1 - mem w mpzP2 - mem w mpzP1 + 1)
    with (mem w mpzP1 * mem w mpzP2 - mem w mpzP1 - mem w mpzP2 + 1) by ring.
  reflexivity.
Qed.

(** *** [main] *)

(** [main] never ends with the error of [fnCompute_exponent_d]: the two
    primes were accepted with [gcd (p - 1, e) = gcd (q - 1, e) = 1], so [e]
    is invertible modulo [(p-1)(q-1)].  When [main] exits, a search has
    failed, and the failure message is the last thing written. *)
Theorem main_fails_only_by_retry (fuel : nat) (inp : stdin) (f : fatal) :
  failure_of (main fuel inp) = Some f ->
  f = RetryExhausted
  /\ exists l : list event,
      output_of (main fuel inp) = l ++ [Failure_creating_prime].
Proof.
  destruct (main fuel inp) as [r w' | f' w' |] eqn:E;
    cbn [failure_of output_of]; try discriminate.
  intros H. injection H as ->.
  apply main_exit_inv in E. exact E.
Qed.

(** When [main] returns for a half length [b >= 1], the values it wrote
    to stdout under the four labels are, in this order, the [e], [p], [q]
    and [d] that it leaves in its variables, and it wrote the warning
    exactly when [d < 2^b]. *)
Theorem main_prints_the_key (fuel : nat) (inp : stdin) (e p q d : Z) :
  key_of (main fuel inp) = Some (e, p, q, d) ->
  1 <= Z.quot (key_length inp) 2 ->
  printed_values (output_of (main fuel inp))
  = [(Exponent_e, e); (First_pseudo_prime, p); (Second_pseudo_prime, q);
     (Exponent_d, d)]
  /\ warned (output_of (main fuel inp))
     = (d <? 2 ^ Z.quot (key_length inp) 2).
Proof.
  intros K _. apply main_key_inv in K.
  destruct K as (_ & _ & _ & _ & _ & O). rewrite O.
  destruct (d <? 2 ^ Z.quot (key_length inp) 2); split; reflexivity.
Qed.

(** The modulus of a returned key has exactly [2 * (nlen / 2)] bits: that
    is [nlen] bits for an even key length, and one bit less for an odd
    one. *)
Theorem main_modulus_bit_length (fuel : nat) (inp : stdin) (e p q d : Z) :
  key_of (main fuel inp) = Some (e, p, q, d) ->
  1 <= Z.quot (key_length inp) 2 ->
  2 ^ (2 * Z.quot (key_length inp) 2 - 1) <= p * q
    < 2 ^ (2 * Z.quot (key_length inp) 2)
  /\ Z.log2 (p * q) = 2 * Z.quot (key_length inp) 2 - 1.
Proof.
  intros K Hb. apply main_key_inv in K.
  destruct K as (JP & JQ & (s1 & SP) & (s2 & SQ) & _).
  set (b := Z.quot (key_length inp) 2) in *.
  apply judge_accept in JP. destruct JP as (_ & LP & _).
  apply judge_accept in JQ. destruct JQ as (_ & LQ & _).
  assert (RP : 2 ^ (b - 1) <= p < 2 ^ b).
  { rewrite SP. apply candidate_range; [exact Hb |].
    apply mpz_urandomb_range. lia. }
  assert (RQ : 2 ^ (b - 1) <= q < 2 ^ b).
  { rewrite SQ. apply candidate_range; [exact Hb |].
    apply mpz_urandomb_range. lia. }
  assert (Pos : 0 < 2 ^ (b - 1)) by (apply Z.pow_pos_nonneg; lia).
  assert (Sq : 2 ^ (2 * b) = 2 ^ b * 2 ^ b).
  { rewrite <- Z.pow_add_r by lia. f_equal. lia. }
  assert (B : 2 ^ (2 * b - 1) <= p * q < 2 ^ (2 * b)).
  { split.
    - apply product_of_large_squares; lia.
    - rewrite Sq. apply Z.mul_lt_mono_nonneg; lia. }
  split; [exact B |].
  apply Z.log2_unique; [lia |].
  replace (Z.succ (2 * b - 1)) with (2 * b) by lia. exact B.
Qed.

(** In a returned key both exponents are odd, and the private one lies in
    [1, (p-1)(q-1) - 1]. *)
Theorem main_exponents_odd (fuel : nat) (inp : stdin) (e p q d : Z) :
  key_of (main fuel inp) = Some (e, p, q, d) ->
  2 <= Z.quot (key_length inp) 2 ->
  Z.odd e = true /\ Z.odd d = true /\ 1 <= d < (p - 1) * (q - 1).
Proof.
  intros K Hb. apply main_key_inv in K.
  destruct K as (JP & JQ & (s1 & SP) & (s2 & SQ) & ID & _).
  set (b := Z.quot (key_length inp) 2) in *.
  apply judge_accept in JP. destruct JP as (_ & _ & GP & _).
  assert (OP : Z.odd p = true) by (rewrite SP; apply candidate_odd).
  assert (OQ : Z.odd q = true) by (rewrite SQ; apply candidate_odd).
  assert (RP : 2 ^ (b - 1) <= p < 2 ^ b).
  { rewrite SP. apply candidate_range; [lia |].
    apply mpz_urandomb_range. lia. }
  assert (RQ : 2 ^ (b - 1) <= q < 2 ^ b).
  { rewrite SQ. apply candidate_range; [lia |].
    apply mpz_urandomb_range. lia. }
  assert (Pos : 2 <= 2 ^ (b - 1)).
  { change 2 with (2 ^ 1) at 1. apply Z.pow_le_mono_r; lia. }
  assert (Oe : Z.odd e = true).
  { destruct (Z.odd e) eqn:O; [reflexivity | exfalso].
    apply (no_unit_gcd_of_evens (p - 1) e); [| | exact GP].
    - apply odd_pred_even. exact OP.
    - rewrite <- Z.negb_odd, O. reflexivity. }
  apply Z.odd_spec in OP. destruct OP as (x & Hx).
  apply Z.odd_spec in OQ. destruct OQ as (y & Hy).
  assert (Phi : 2 <= (p - 1) * (q - 1)) by nia.
  apply mpz_invert_inverse in ID; [| lia].
  destruct ID as (Rd & Md). rewrite Z.mod_1_l in Md by lia.
  assert (Ode : Z.odd (d * e) = true).
  { apply Z.odd_spec.
    exists (x * (q - 1) * (d * e / ((p - 1) * (q - 1)))).
    pose proof (Z.div_mod (d * e) ((p - 1) * (q - 1)) ltac:(lia)) as DM.
    rewrite Md in DM. rewrite DM at 1.
    replace (p - 1) with (2 * x) by lia. ring. }
  rewrite Z.odd_mul in Ode. apply andb_prop in Ode. destruct Ode as (Od & _).
  split; [exact Oe |]. split; [exact Od |].
  apply Z.odd_spec in Od. destruct Od as (z & Hz). lia.
Qed.

(** No key comes out of [main] for a key length below 8: primes of 1, 2 or
    3 bits have at most one candidate that passes the size filter, so the
    second search, which must differ from the first prime, can only
    restart. *)
Theorem main_needs_four_bit_primes (fuel : nat) (inp : stdin) :
  1 <= Z.quot (key_length inp) 2 <= 3 ->
  key_of (main fuel inp) = None.
Proof.
  intros Hb.
  destruct (main fuel inp) as [r w' | f w' |] eqn:E; cbn [key_of];
    [| reflexivity | reflexivity].
  exfalso. apply main_done_inv in E.
  destruct E as (e & p & q & d & _ & JP & JQ & (s1 & SP) & (s2 & SQ) & _).
  set (b := Z.quot (key_length inp) 2) in *.
  apply judge_accept in JP. destruct JP as (_ & LP & _).
  apply judge_accept in JQ. destruct JQ as (DQ & LQ & _).
  specialize (DQ eq_refl).
  assert (Rb : 0 <= b - 1) by lia.
  pose proof (mpz_urandomb_range s1 (b - 1) Rb) as R1.
  pose proof (mpz_urandomb_range s2 (b - 1) Rb) as R2.
  rewrite SP in LP. rewrite SQ in LQ.
  pose proof (only_one_large_candidate b _ Hb R1 LP) as CP.
  pose proof (only_one_large_candidate b _ Hb R2 LQ) as CQ.
  rewrite <- SP in CP. rewrite <- SQ in CQ.
  assert (Epq : q - p = 0) by lia.
  rewrite Epq in DQ.
  rewrite Z.max_l in DQ by lia.
  change (2 ^ 0) with 1 in DQ. change (Z.abs 0) with 0 in DQ. lia.
Qed.

End FurtherProperties.

(** ** Concrete runs for the further properties *)

(** With [e = 2] the search at 2 bits counts ten attempts and fails. *)
Lemma fnCreate_pseudo_prime_even_exponent_witness :
  Z.even (mem (scripted_world 0 0 2 []) main_mpzE) = true
  /\ failure_of (fnCreate_pseudo_prime (G := Scripted) main_mpzP1 main_mpzE
                   main_mpzP2 2 NUMTESTS 0 20 (scripted_world 0 0 2 []))
     = Some RetryExhausted
  /\ is_done (fnCreate_pseudo_prime (G := Scripted) main_mpzP1 main_mpzE
                main_mpzP2 2 NUMTESTS 0 20 (scripted_world 0 0 2 []))
     = false.
Proof.
  split; [reflexivity |]. split; [reflexivity |].
  exact (fnCreate_pseudo_prime_even_exponent (G := Scripted)
           main_mpzP1 main_mpzE main_mpzP2 2 NUMTESTS 0 20
           (scripted_world 0 0 2 []) eq_refl).
Defined.

(** The first search of [main] with [mpzD] in the place of [mpzP2]. *)
Lemma fnCreate_pseudo_prime_ignores_companion_witness :
  0 <> 1
  /\ fnCreate_pseudo_prime (G := Scripted) main_mpzP1 main_mpzE main_mpzP2
       5 NUMTESTS 0 4 (scripted_world 0 0 3 [7])
     = fnCreate_pseudo_prime (G := Scripted) main_mpzP1 main_mpzE main_mpzD
         5 NUMTESTS 0 4 (scripted_world 0 0 3 [7]).
Proof.
  assert (Hne : 0 <> 1) by (intros E; discriminate E).
  split; [exact Hne |].
  exact (fnCreate_pseudo_prime_ignores_companion (G := Scripted)
           main_mpzP1 main_mpzE main_mpzP2 main_mpzD 5 NUMTESTS 0 4
           (scripted_world 0 0 3 [7]) Hne).
Defined.

(** The draws 4 and 70001 again: 70001 is stored. *)
Lemma fnGet_exponent_e_random_range_witness :
  fnGet_exponent_e (G := Scripted) main_mpzE None 5
    (scripted_world 0 0 1 [4; 70001])
  = Done 0 (returned (scripted_world 0 0 1 [4; 70001]) [] main_mpzE 70001)
  /\ (65537 <= 70001 < 2 ^ 256 /\ Z.odd 70001 = true).
Proof.
  split; [reflexivity |].
  exact (fnGet_exponent_e_random_range (G := Scripted) main_mpzE 5
           (scripted_world 0 0 1 [4; 70001]) 0
           (returned (scripted_world 0 0 1 [4; 70001]) [] main_mpzE 70001)
           eq_refl).
Defined.

(** A typed exponent: [p], [q] and the pending draw 9 stay as they were. *)
Lemma fnGet_exponent_e_writes_only_e_witness :
  fnGet_exponent_e (G := Scripted) main_mpzE (Some 65537) 0
    (scripted_world 23 29 1 [9])
  = Done 0 (set_mem (scripted_world 23 29 1 [9]) main_mpzE 65537)
  /\ mem (set_mem (scripted_world 23 29 1 [9]) main_mpzE 65537) main_mpzP1
     = mem (scripted_world 23 29 1 [9]) main_mpzP1
  /\ rndState (set_mem (scripted_world 23 29 1 [9]) main_mpzE 65537)
     = rndState (scripted_world 23 29 1 [9]).
Proof.
  assert (Hne : main_mpzP1 <> main_mpzE) by (intros E; discriminate E).
  assert (Ht : Some 65537 <> None) by (intros E; discriminate E).
  pose proof (fnGet_exponent_e_writes_only_e (G := Scripted) main_mpzE
                (Some 65537) 0 (scripted_world 23 29 1 [9]) 0
                (set_mem (scripted_world 23 29 1 [9]) main_mpzE 65537)
                eq_refl)
    as (F & T).
  split; [reflexivity |]. split; [exact (F main_mpzP1 Hne) | exact (T Ht)].
Defined.

(** The session with the even exponent fails in the first search. *)
Lemma main_fails_only_by_retry_witness :
  failure_of (main (G := Scripted) 64 even_session) = Some RetryExhausted
  /\ exists l : list event,
      output_of (main (G := Scripted) 64 even_session)
      = l ++ [Failure_creating_prime].
Proof.
  split; [reflexivity |].
  exact (proj2 (main_fails_only_by_retry (G := Scripted) 64 even_session
                  RetryExhausted eq_refl)).
Defined.

(** The session with the drawn exponent: the four values, and the
    warning, since [15 < 2^5]. *)
Lemma main_prints_the_key_witness :
  key_of (main (G := Scripted) 64 drawn_session)
  = Some (15462296684244204215, 29, 23, 15)
  /\ 1 <= Z.quot (key_length drawn_session) 2
  /\ (printed_values (output_of (main (G := Scripted) 64 drawn_session))
      = [(Exponent_e, 15462296684244204215); (First_pseudo_prime, 29);
         (Second_pseudo_prime, 23); (Exponent_d, 15)]
      /\ warned (output_of (main (G := Scripted) 64 drawn_session))
         = (15 <? 2 ^ Z.quot (key_length drawn_session) 2)).
Proof.
  assert (Hb : 1 <= Z.quot (key_length drawn_session) 2)
    by (intros E; discriminate E).
  split; [reflexivity |]. split; [exact Hb |].
  exact (main_prints_the_key (G := Scripted) 64 drawn_session
           15462296684244204215 29 23 15 eq_refl Hb).
Defined.

(** [23 * 29 = 667] has 10 bits. *)
Lemma main_modulus_bit_length_witness :
  key_of (main (G := Scripted) 64 typed_session) = Some (3, 23, 29, 411)
  /\ 1 <= Z.quot (key_length typed_session) 2
  /\ (2 ^ (2 * 5 - 1) <= 23 * 29 < 2 ^ (2 * 5)
      /\ Z.log2 (23 * 29) = 2 * 5 - 1).
Proof.
  assert (Hb : 1 <= Z.quot (key_length typed_session) 2)
    by (intros E; discriminate E).
  split; [reflexivity |]. split; [exact Hb |].
  exact (main_modulus_bit_length (G := Scripted) 64 typed_session
           3 23 29 411 eq_refl Hb).
Defined.

(** [e = 3] and [d = 411] are odd, and [411 < 22 * 28]. *)
Lemma main_exponents_odd_witness :
  key_of (main (G := Scripted) 64 typed_session) = Some (3, 23, 29, 411)
  /\ 2 <= Z.quot (key_length typed_session) 2
  /\ (Z.odd 3 = true /\ Z.odd 411 = true
      /\ 1 <= 411 < (23 - 1) * (29 - 1)).
Proof.
  assert (Hb : 2 <= Z.quot (key_length typed_session) 2)
    by (intros E; discriminate E).
  split; [reflexivity |]. split; [exact Hb |].
  exact (main_exponents_odd (G := Scripted) 64 typed_session
           3 23 29 411 eq_refl Hb).
Defined.

(** At key length 6 the first search returns 7 and the second is still
    running after 64 attempts. *)
Lemma main_needs_four_bit_primes_witness :
  1 <= Z.quot (key_length short_session) 2 <= 3
  /\ is_over (main (G := Scripted) 64 short_session) = false
  /\ key_of (main (G := Scripted) 64 short_session) = None.
Proof.
  assert (Hb : 1 <= Z.quot (key_length short_session) 2 <= 3)
    by (split; intros E; discriminate E).
  split; [exact Hb |]. split; [reflexivity |].
  exact (main_needs_four_bit_primes (G := Scripted) 64 short_session Hb).
Defined.

(** Witness for C6: for [p = 23], [q = 29] the exponent 3 is coprime to
    [22 * 28] and the function returns; the exponent 7 divides it and the
    function exits. *)
Lemma fnCompute_exponent_d_fails_iff_witness :
  0 <= 5
  /\ (exists w' : world,
        fnCompute_exponent_d (G := Scripted) main_mpzP1 main_mpzE main_mpzP2
          main_mpzD 5 (scripted_world 23 29 3 []) = Done 0 w')
  /\ (exists (f : fatal) (w' : world),
        fnCompute_exponent_d (G := Scripted) main_mpzP1 main_mpzE main_mpzP2
          main_mpzD 5 (scripted_world 23 29 7 []) = Exit1 f w').
Proof.
  assert (Hb : 0 <= 5) by (intros E; discriminate E).
  split; [exact Hb |]. split.
  - exact (proj2 (proj2 (proj2 (fnCompute_exponent_d_fails_iff (G := Scripted)
                                  main_mpzP1 main_mpzE main_mpzP2 main_mpzD 5
                                  (scripted_world 23 29 3 []))) Hb)
                 eq_refl).
  - apply (proj2 (proj1 (fnCompute_exponent_d_fails_iff (G := Scripted)
                           main_mpzP1 main_mpzE main_mpzP2 main_mpzD 5
                           (scripted_world 23 29 7 [])))).
    intros E. discriminate E.
Defined.
